(** * aipy/agent.py: the reply classifier, the instruction loop and publish

    A shallow embedding of [aipy.agent.Agent].  Python [str] values are
    sequences of Unicode code points; the collaborators the class only calls
    (the model client [LLM], the sandbox [Runner], [i18n.T], [json.dumps],
    [requests.post], the console) are taken as an interface, and every call
    the agent makes to one of them is appended to a trace. *)

From Stdlib Require Import List String Ascii Bool NArith ZArith Lia.
Import ListNotations.

Set Implicit Arguments.

(** ** Python strings *)

Module PyStr.

(** A character is a Unicode code point, a [str] is a sequence of them. *)
Definition char := N.
Definition str := list char.

Definition lit (s : string) : str :=
  List.map N_of_ascii (list_ascii_of_string s).

Definition NL : char := 10%N.

Definition char_eqb (a b : char) : bool := N.eqb a b.

Fixpoint eqb (a b : str) : bool :=
  match a, b with
  | [], [] => true
  | x :: a', y :: b' => char_eqb x y && eqb a' b'
  | _, _ => false
  end.

(** [str.isspace] on one character (CPython's [_PyUnicode_IsWhitespace]). *)
Definition isspace (c : char) : bool :=
  ((9 <=? c) && (c <=? 13) ||
   (28 <=? c) && (c <=? 32) ||
   (c =? 133) || (c =? 160) || (c =? 5760) ||
   (8192 <=? c) && (c <=? 8202) ||
   (c =? 8232) || (c =? 8233) || (c =? 8239) || (c =? 8287) ||
   (c =? 12288))%N.

Fixpoint lstrip (s : str) : str :=
  match s with
  | [] => []
  | c :: s' => if isspace c then lstrip s' else s
  end.

Definition rstrip (s : str) : str := rev (lstrip (rev s)).

(** [s.strip()] *)
Definition strip (s : str) : str := rstrip (lstrip s).

(** [s.startswith(p)] *)
Fixpoint startswith (s p : str) {struct p} : bool :=
  match p with
  | [] => true
  | c :: p' =>
      match s with
      | [] => false
      | d :: s' => char_eqb d c && startswith s' p'
      end
  end.

(** [s.split('\n')]: never empty, one more piece than there are breaks. *)
Fixpoint split_nl (s : str) : list str :=
  match s with
  | [] => [[]]
  | c :: s' =>
      if char_eqb c NL then [] :: split_nl s'
      else match split_nl s' with
           | [] => [[c]]
           | l :: ls => (c :: l) :: ls
           end
  end.

(** ['\n'.join(ls)] *)
Fixpoint join_nl (ls : list str) : str :=
  match ls with
  | [] => []
  | [l] => l
  | l :: ls' => l ++ NL :: join_nl ls'
  end.

(** Truth value of a [str]. *)
Definition nonempty (s : str) : bool :=
  match s with [] => false | _ :: _ => true end.

End PyStr.
Import PyStr.

(** Truth value of an optional string ([None] and [''] are false). *)
Definition truthy (o : option str) : bool :=
  match o with
  | Some s => nonempty s
  | None => false
  end.

(** [a or b] on optional strings. *)
Definition py_or (a b : option str) : option str :=
  if truthy a then a else b.

(** ** The reply classifier *)

Inductive MsgType := CODE | TEXT.

Definition MsgType_eqb (a b : MsgType) : bool :=
  match a, b with
  | CODE, CODE | TEXT, TEXT => true
  | _, _ => false
  end.

(** The dict [{'type': ..., 'code': ...}] that [parse_reply] returns. *)
Record Msg := mkMsg { msg_type : MsgType; msg_code : option str }.

Definition run_marker : str := lit "```run".
Definition fence_marker : str := lit "```".

(** [line.strip().startswith('```run')] *)
Definition is_run_opener (line : str) : bool :=
  startswith (strip line) run_marker.

(** [line.strip().startswith('```')] *)
Definition is_fence (line : str) : bool :=
  startswith (strip line) fence_marker.

(** The [for line in lines] loop of [parse_reply], with its two variables
    [in_code_block] and [code_block]; the result is [code_block] when the
    loop ends or breaks. *)
Fixpoint scan_lines (lines : list str) (in_code_block : bool)
    (code_block : list str) : list str :=
  match lines with
  | [] => code_block
  | line :: rest =>
      if is_run_opener line then scan_lines rest true code_block
      else if is_fence line && in_code_block then code_block
      else if in_code_block then scan_lines rest in_code_block (code_block ++ [line])
      else scan_lines rest in_code_block code_block
  end.

Definition parse_reply (text : str) : Msg :=
  let lines := split_nl text in
  let code_block := scan_lines lines false [] in
  match code_block with
  | _ :: _ => mkMsg CODE (Some (join_nl code_block))
  | [] => mkMsg TEXT None
  end.

(** ** Values exchanged with the collaborators *)

(** A decoded JSON document, as [response.json()] returns it. *)
#[local] Set Warnings "-register-all".
Inductive json :=
| JNull
| JBool (b : bool)
| JNum (z : Z)
| JStr (s : str)
| JArr (items : list json)
| JObj (members : list (str * json)).

Inductive Exn :=
| AttributeError (attr : string)
| KeyError (key : string)
| TypeError
| ValueError
| OSError
| JSONDecodeError
| RequestException (detail : str).

(** The arguments of [requests.post(url, files=, data=, cert=, verify=)]. *)
Record Request := mkRequest {
  req_url : str;
  req_content : str;
  req_title : option str;
  req_metadata : str;
  req_cert : string;
  req_verify : bool
}.

(** What the agent reads of a [requests.Response]: [status_code], [text]
    and [json()], which raises when the body is not a JSON document. *)
Record Response := mkResponse {
  status_code : Z;
  text : str;
  json_body : option json
}.

(** What [console.print] is given: a string, a [Markdown] object or a
    decoded JSON value. *)
Inductive Renderable :=
| RStr (s : str)
| RMarkdown (s : str)
| RJson (v : json).

(** One call from the agent to a collaborator. *)
Inductive Event :=
| EvPrint (args : list Renderable)
| EvPrintException (e : Exn)
| EvLLM (content : str) (system_prompt : option str) (name : option str)
        (reply : option str)
| EvLLMClear
| EvRun (code : option str)
| EvSetenv (name value desc : str)
| EvRunnerClear
| EvPost (req : Request)
| EvWrite (fd : Z) (data : list N).

(** ** Configuration *)

(** One entry of [config['api']]: [env] maps a variable name to
    [(value, description)], [desc] is free text.  Python dicts iterate in
    insertion order, so they are association lists here. *)
Record ApiConf := mkApiConf {
  api_env : option (list (str * (str * str)));
  api_desc : option str
}.

Record Settings (LLMConf : Type) := mkSettings {
  cfg_lang : option str;
  cfg_record : option bool;
  cfg_max_tokens : option Z;
  cfg_system_prompt : option str;
  cfg_llm : option LLMConf;
  cfg_api : option (list (str * ApiConf));
  cfg_publish_url : option str;
  cfg_publish_cert : option str
}.

(** The [rich] console the agent prints to; what it prints is in the trace. *)
Record Console := mkConsole { record : bool }.

(** ** The collaborators' interface

    What the agent calls and does not define.  Each operation takes the
    collaborator's state and returns its new state with the result.  The
    calls are taken to return, as their contracts say; [requests.post] may
    raise, which is what [publish] guards against, and so does the one call
    of the console that does not fit its signature
    ([console_print_exception] below). *)

Class Collab := {
  (** [aipy.llm.LLM] *)
  LLMConf : Type;
  LLM : Type;
  llm_new : Console -> LLMConf -> Z -> LLM;
  (** the truth value of [llm.history] *)
  llm_history : LLM -> bool;
  (** [llm(content, system_prompt=, name=)]: a reply, [None] or empty *)
  llm_send : LLM -> str -> option str -> option str -> option str * LLM;
  llm_clear : LLM -> LLM;
  llm_get_last_message : LLM -> option str;
  (** [aipy.runner.Runner] *)
  Runner : Type;
  RunResult : Type;
  runner_new : Console -> Settings LLMConf -> Runner;
  runner_run : Runner -> option str -> RunResult * Runner;
  runner_setenv : Runner -> str -> str -> str -> Runner;
  runner_clear : Runner -> Runner;
  (** [json.dumps(result, ensure_ascii=False)] and [json.dumps(meta)] *)
  dumps_result : RunResult -> str;
  dumps : json -> str;
  (** [aipy.i18n.T], under the module's current [lang] *)
  T : option str -> string -> list Z -> str;
  (** [console.export_html(clear=False)] *)
  export_html : Console -> list Event -> str;
  (** [requests.post]: a response, or an exception *)
  Net : Type;
  requests_post : Net -> Request -> (Exn + Response) * Net
}.

(** ** The state *)

Section AgentModel.

Context {C : Collab}.

(** The attributes of an [Agent] object once [_init] has run. *)
Record Agent := mkAgent {
  settings : Settings LLMConf;
  instruction : option str;
  _console : Console;
  system_prompt : option str;
  max_tokens : Z;
  llm : LLM;
  runner : Runner
}.

(** What lives outside the object: the module global [i18n.lang], the file
    at [CERT_PATH] ([None] when it does not exist), the login name that
    [os.getlogin()] returns ([None] when it raises), the network, and the
    trace of the calls made so far. *)
Record Env := mkEnv {
  i18n_lang : option str;
  cert_file : option str;
  os_login : option str;
  net : Net;
  trace : list Event
}.

Record World := mkWorld { self : Agent; env : Env }.

Definition MAX_TOKENS : Z := 4096.
Definition CERT_PATH : string := "/tmp/aipy_client.crt".

Definition emit_env (ev : Event) (e : Env) : Env :=
  mkEnv (i18n_lang e) (cert_file e) (os_login e) (net e) (trace e ++ [ev]).

Definition set_lang (l : option str) (e : Env) : Env :=
  mkEnv l (cert_file e) (os_login e) (net e) (trace e).

Definition set_cert_file (f : option str) (e : Env) : Env :=
  mkEnv (i18n_lang e) f (os_login e) (net e) (trace e).

Definition set_net (n : Net) (e : Env) : Env :=
  mkEnv (i18n_lang e) (cert_file e) (os_login e) n (trace e).

Definition set_instruction (i : option str) (a : Agent) : Agent :=
  mkAgent (settings a) i (_console a) (system_prompt a) (max_tokens a)
          (llm a) (runner a).

Definition set_llm (l : LLM) (a : Agent) : Agent :=
  mkAgent (settings a) (instruction a) (_console a) (system_prompt a)
          (max_tokens a) l (runner a).

Definition set_runner (r : Runner) (a : Agent) : Agent :=
  mkAgent (settings a) (instruction a) (_console a) (system_prompt a)
          (max_tokens a) (llm a) r.

(** ** A state and exception monad

    A Python exception leaves the state as it was when it was raised, so the
    state comes back with every outcome.  [OutOfFuel] is the one outcome
    Python does not have: the bound on the [while] loop was reached. *)

Inductive Res (A : Type) :=
| Ok (a : A)
| Raise (e : Exn)
| OutOfFuel.
Arguments Ok {A} a.
Arguments Raise {A} e.
Arguments OutOfFuel {A}.

Definition M (A : Type) := World -> Res A * World.

Definition ret {A} (a : A) : M A := fun w => (Ok a, w).

Definition bind {A B} (m : M A) (k : A -> M B) : M B :=
  fun w =>
    match m w with
    | (Ok a, w') => k a w'
    | (Raise e, w') => (Raise e, w')
    | (OutOfFuel, w') => (OutOfFuel, w')
    end.

Definition raise {A} (e : Exn) : M A := fun w => (Raise e, w).

Definition out_of_fuel {A} : M A := fun w => (OutOfFuel, w).

(** [try: m except Exception as e: h e] *)
Definition try_except {A} (m : M A) (h : Exn -> M A) : M A :=
  fun w =>
    match m w with
    | (Raise e, w') => h e w'
    | r => r
    end.

Definition get : M World := fun w => (Ok w, w).

Definition emit (ev : Event) : M unit :=
  fun w => (Ok tt, mkWorld (self w) (emit_env ev (env w))).

Definition modify_self (f : Agent -> Agent) : M unit :=
  fun w => (Ok tt, mkWorld (f (self w)) (env w)).

Definition modify_env (f : Env -> Env) : M unit :=
  fun w => (Ok tt, mkWorld (self w) (f (env w))).

End AgentModel.

Arguments Ok {A} a.
Arguments Raise {A} e.
Arguments OutOfFuel {A}.

Declare Scope agent_scope.
Delimit Scope agent_scope with agent.
Notation "x <- m ;; k" := (bind m (fun x => k))
  (at level 61, m at next level, right associativity) : agent_scope.
Notation "m ;; k" := (bind m (fun _ => k))
  (at level 61, right associativity) : agent_scope.

(** ** The methods of [Agent] *)

Section AgentMethods.

Context {C : Collab}.
Local Open Scope agent_scope.

(** [T(key, ...)] under the current [i18n.lang]. *)
Definition T_ (key : string) (args : list Z) : M str :=
  w <- get ;; ret (T (i18n_lang (env w)) key args).

(** [self._console.print(...)] *)
Definition console_print (args : list Renderable) : M unit :=
  emit (EvPrint args).

(** [self._console.print_exception(e)].  The console is [rich]'s [Console]
    (imported at line 10, built at line 42), whose [print_exception] takes
    keyword arguments only: called with the exception as a positional
    argument it raises [TypeError] before it prints anything. *)
Definition console_print_exception (e : Exn) : M unit :=
  raise TypeError.

(** [self.llm(content, system_prompt=..., name=...)] *)
Definition llm_call (content : str) (system_prompt : option str)
    (name : option str) : M (option str) :=
  fun w =>
    let '(reply, l') := llm_send (llm (self w)) content system_prompt name in
    (Ok reply,
     mkWorld (set_llm l' (self w))
             (emit_env (EvLLM content system_prompt name reply) (env w))).

(** [self.runner(code_block)] *)
Definition runner_call (code_block : option str) : M RunResult :=
  fun w =>
    let '(result, r') := runner_run (runner (self w)) code_block in
    (Ok result,
     mkWorld (set_runner r' (self w)) (emit_env (EvRun code_block) (env w))).

(** [os.write(fd, data)] *)
Definition os_write (fd : Z) (data : list N) : M unit :=
  emit (EvWrite fd data).

(** How an f-string renders a value that is a string or [None]. *)
Definition format (o : option str) : str :=
  match o with
  | Some s => s
  | None => lit "None"
  end.

(** *** [_init]

    [__init__] stores [settings] and [console], sets the other attributes to
    [None] and runs [_init]; [reset] runs it again on the same object.
    [_init] assigns [llm], [runner], [max_tokens] and [system_prompt] before
    it reads them, so it is given what it does read: the settings, the
    console (or [None]) and the instruction it leaves alone. *)

(** [for name, (value, desc) in envs.items()] *)
Fixpoint env_loop (envs : list (str * (str * str)))
    (lines : list (option str)) (r : Runner) (tr : list Event)
    : list (option str) * Runner * list Event :=
  match envs with
  | [] => (lines, r, tr)
  | (name, (value, desc)) :: rest =>
      let value := strip value in
      if negb (nonempty value) then env_loop rest lines r tr
      else
        let var_name := name in
        env_loop rest
          (lines ++ [Some (lit "- " ++ var_name ++ lit ": " ++ desc)])
          (runner_setenv r var_name value desc)
          (tr ++ [EvSetenv var_name value desc])
  end.

(** [for api_name, api_conf in api.items()] *)
Fixpoint api_loop (lang : option str) (api : list (str * ApiConf))
    (lines : list (option str)) (r : Runner) (tr : list Event)
    : list (option str) * Runner * list Event :=
  match api with
  | [] => (lines, r, tr)
  | (api_name, api_conf) :: rest =>
      let lines := lines ++ [Some (lit "## " ++ api_name ++ lit " API")] in
      let envs := match api_env api_conf with Some e => e | None => [] end in
      let '(lines, r, tr) :=
        match envs with
        | _ :: _ =>
            env_loop envs
              (lines ++ [Some (lit "### " ++ T lang "env_description" [])])
              r tr
        | [] => (lines, r, tr)
        end in
      let desc := api_desc api_conf in
      let lines :=
        if truthy desc
        then lines ++ [Some (lit "### API " ++ T lang "description" []
                               ++ [NL] ++ format desc)]
        else lines in
      api_loop lang rest lines r tr
  end.

(** ["\n".join(lines)], a [TypeError] when an item is [None]. *)
Fixpoint join_lines (lines : list (option str)) : option str :=
  match lines with
  | [] => Some []
  | [Some l] => Some l
  | Some l :: rest =>
      match join_lines rest with
      | Some s => Some (l ++ NL :: s)
      | None => None
      end
  | None :: _ => None
  end.

Definition _init (config : Settings LLMConf) (console : option Console)
    (instruction : option str) (e : Env) : Res Agent * Env :=
  let lang := cfg_lang config in
  let e := if truthy lang then set_lang lang e else e in
  let console :=
    match console with
    | Some c => c
    | None =>
        mkConsole (match cfg_record config with Some b => b | None => true end)
    end in
  let max_tokens :=
    match cfg_max_tokens config with Some n => n | None => MAX_TOKENS end in
  let system_prompt := cfg_system_prompt config in
  let runner := runner_new console config in
  match cfg_llm config with
  | None => (Raise (KeyError "llm"), e)
  | Some llm_conf =>
      let llm := llm_new console llm_conf max_tokens in
      match cfg_api config with
      | Some ((_ :: _) as api) =>
          let '(lines, runner, tr) :=
            api_loop (i18n_lang e) api [system_prompt] runner (trace e) in
          let e := mkEnv (i18n_lang e) (cert_file e) (os_login e) (net e) tr in
          match join_lines lines with
          | Some s =>
              (Ok (mkAgent config instruction console (Some s) max_tokens
                           llm runner), e)
          | None => (Raise TypeError, e)
          end
      | _ =>
          (Ok (mkAgent config instruction console system_prompt max_tokens
                       llm runner), e)
      end
  end.

(** The configuration of the prompt-assembly scenario, with the [llm] entry
    that [_init] reads to build the model client. *)
Definition weather_config (llm_conf : LLMConf) : Settings LLMConf :=
  mkSettings None None None (Some (lit "Base")) (Some llm_conf)
    (Some [(lit "Weather",
            mkApiConf (Some [(lit "API_KEY", (lit "abc", lit "key"))])
                      (Some (lit "Gets weather")))])
    None None.

(** [Agent(settings, console)] *)
Definition __init__ (settings : Settings LLMConf) (console : option Console)
    (e : Env) : Res Agent * Env :=
  _init settings console None e.

(** *** [clear] *)
Definition clear : M unit :=
  modify_self (fun a => set_llm (llm_clear (llm a)) a) ;;
  emit EvLLMClear ;;
  modify_self (fun a => set_runner (runner_clear (runner a)) a) ;;
  emit EvRunnerClear.

(** *** [process_code_reply] *)
Definition process_code_reply (msg : Msg) : M (option str) :=
  let code_block := msg_code msg in
  t <- T_ "start_execute" [] ;;
  console_print
    [RStr (NL :: 9889%N :: lit " " ++ t ++ lit ":");
     RMarkdown (lit "```python" ++ NL :: format code_block ++ NL :: lit "```")] ;;
  result <- runner_call code_block ;;
  let result := dumps_result result in
  t <- T_ "execute_result" [] ;;
  console_print
    [RStr (9989%N :: lit " " ++ t ++ lit ":" ++ [NL]);
     RMarkdown (lit "```json" ++ NL :: result ++ NL :: lit "```")] ;;
  t <- T_ "start_feedback" [] ;;
  console_print [RStr (NL :: 128228%N :: lit " " ++ t)] ;;
  feedback_response <- llm_call result None None ;;
  ret feedback_response.

(** *** [__call__]

    The [while response:] loop.  [fuel] bounds the number of replies it
    handles; the source has no bound. *)
Fixpoint while_response (fuel : nat) (response : option str) {struct fuel}
    : M unit :=
  match response with
  | Some ((_ :: _) as reply) =>
      match fuel with
      | O => out_of_fuel
      | S fuel' =>
          t <- T_ "llm_response" [] ;;
          console_print
            [RStr (128229%N :: lit " " ++ t ++ lit ":" ++ [NL]);
             RMarkdown reply] ;;
          let msg := parse_reply reply in
          if negb (MsgType_eqb (msg_type msg) CODE) then ret tt
          else
            response <- process_code_reply msg ;;
            while_response fuel' response
      end
  | _ => ret tt
  end.

(** The parameter [api] of the source is never read and is left out. *)
Definition __call__ (fuel : nat) (instruction : str) (llm_name : option str)
    : M unit :=
  t <- T_ "start_instruction" [] ;;
  console_print
    [RStr (9654%N :: lit " [yellow]" ++ t ++ lit ":");
     RStr (lit "[red]" ++ instruction)] ;;
  w <- get ;;
  let system_prompt :=
    if llm_history (llm (self w)) then None else system_prompt (self w) in
  (if truthy system_prompt
   then modify_self (set_instruction (Some instruction))
   else ret tt) ;;
  response <- llm_call instruction system_prompt llm_name ;;
  while_response fuel response ;;
  t <- T_ "end_instruction" [] ;;
  console_print [RStr (NL :: 9209%N :: lit " " ++ t)] ;;
  os_write 1 [7; 7; 7]%N.

(** *** [chat] *)

(** [response, ok = value]: a string unpacks into its characters. *)
Definition unpack2 (value : option str) : M (str * str) :=
  match value with
  | None => raise TypeError
  | Some [a; b] => ret ([a], [b])
  | Some _ => raise ValueError
  end.

Definition chat (prompt : str) : M unit :=
  w <- get ;;
  let system_prompt :=
    if llm_history (llm (self w)) then None else system_prompt (self w) in
  r <- llm_call prompt system_prompt None ;;
  p <- unpack2 r ;;
  let '(response, ok) := p in
  console_print [RMarkdown response].

(** *** [step]

    The class defines [__init__], [_init], [reset], [clear], [save],
    [parse_reply], [process_code_reply], [__call__], [chat], [step] and
    [publish], and no attribute [process_reply]: looking it up on [self]
    raises. *)
Definition step : M unit :=
  w <- get ;;
  let response := llm_get_last_message (llm (self w)) in
  if negb (truthy response) then
    t <- T_ "no_context" [] ;;
    console_print [RStr (10060%N :: lit " " ++ t)]
  else
    raise (AttributeError "process_reply").

(** *** [publish] *)

(** [os.getlogin()] *)
Definition os_getlogin : M str :=
  w <- get ;;
  match os_login (env w) with
  | Some name => ret name
  | None => raise OSError
  end.

(** [CERT_PATH.exists() and CERT_PATH.stat().st_size > 0] *)
Definition cert_staged (e : Env) : bool := truthy (cert_file e).

(** [CERT_PATH.write_text(cert)] *)
Definition write_cert (cert : str) : M unit :=
  modify_env (set_cert_file (Some cert)).

(** [requests.post(...)], raising what the transport raises. *)
Definition post (req : Request) : M Response :=
  fun w =>
    let '(r, n') := requests_post (net (env w)) req in
    let w' := mkWorld (self w) (emit_env (EvPost req) (set_net n' (env w))) in
    match r with
    | inl e => (Raise e, w')
    | inr response => (Ok response, w')
    end.

(** [response.json()] *)
Definition response_json (response : Response) : M json :=
  match json_body response with
  | Some v => ret v
  | None => raise JSONDecodeError
  end.

(** [v[key]] on a decoded JSON value: only a dict takes a string key (its
    members have distinct keys). *)
Definition getitem (v : json) (key : string) : Exn + json :=
  match v with
  | JObj members =>
      match find (fun kv => PyStr.eqb (fst kv) (lit key)) members with
      | Some kv => inr (snd kv)
      | None => inl (KeyError key)
      end
  | _ => inl TypeError
  end.

Definition subscript (v : json) (key : string) : M json :=
  match getitem v key with
  | inr x => ret x
  | inl e => raise e
  end.

(** The request that [publish] posts. *)
Definition publish_request (url : str) (title : option str) (author : str)
    (w : World) : Request :=
  let meta := JObj [(lit "author", JStr author)] in
  mkRequest url (export_html (_console (self w)) (trace (env w)))
            title (dumps meta) CERT_PATH true.

Definition publish (title author : option str) : M unit :=
  w <- get ;;
  let url := cfg_publish_url (settings (self w)) in
  let cert := cfg_publish_cert (settings (self w)) in
  match url, cert with
  | Some ((_ :: _) as url), Some ((_ :: _) as cert) =>
      let title := py_or title (instruction (self w)) in
      author <- (match author with
                 | Some ((_ :: _) as a) => ret a
                 | _ => os_getlogin
                 end) ;;
      let req := publish_request url title author w in
      (if negb (cert_staged (env w)) then write_cert cert else ret tt) ;;
      r <- try_except
             (response <- post req ;; ret (Some response))
             (fun e => console_print_exception e ;; ret None) ;;
      match r with
      | None => ret tt
      | Some response =>
          let status_code := status_code response in
          if (status_code =? 201)%Z then
            t <- T_ "upload_success" [] ;;
            v <- response_json response ;;
            u <- subscript v "url" ;;
            console_print [RStr (lit "[green]" ++ t ++ lit ":"); RJson u]
          else
            t <- T_ "upload_failed" [status_code] ;;
            console_print [RStr (lit "[red]" ++ t ++ lit ":");
                           RStr (text response)]
      end
  | _, _ =>
      (* not (url and cert) *)
      t <- T_ "publish_disabled" [] ;;
      console_print [RStr (lit "[red]" ++ t)]
  end.

(** ** Sessions

    A session is a sequence of calls on one [Agent] object.  An exception
    that leaves a method ends that call, not the session. *)

Inductive Op :=
| OpCall (instruction : str) (llm_name : option str)
| OpChat (prompt : str)
| OpStep
| OpClear
| OpPublish (title author : option str).

Definition run_op (fuel : nat) (o : Op) : M unit :=
  match o with
  | OpCall instruction llm_name => __call__ fuel instruction llm_name
  | OpChat prompt => chat prompt
  | OpStep => step
  | OpClear => clear
  | OpPublish title author => publish title author
  end.

Fixpoint session (fuel : nat) (ops : list Op) (w : World) : World :=
  match ops with
  | [] => w
  | o :: rest => session fuel rest (snd (run_op fuel o w))
  end.

End AgentMethods.

Arguments getitem : simpl never.

(** ** Reading a trace *)

(** The replies the model gave, in order. *)
Definition replies (tr : list Event) : list (option str) :=
  flat_map (fun ev => match ev with EvLLM _ _ _ r => [r] | _ => [] end) tr.

(** The code blocks handed to the execution collaborator, in order. *)
Definition runs (tr : list Event) : list (option str) :=
  flat_map (fun ev => match ev with EvRun c => [c] | _ => [] end) tr.

(** The system-prompt argument of each model call, in order. *)
Definition prompts (tr : list Event) : list (option str) :=
  flat_map (fun ev => match ev with EvLLM _ sp _ _ => [sp] | _ => [] end) tr.

(** The requests posted, in order. *)
Definition posts (tr : list Event) : list Request :=
  flat_map (fun ev => match ev with EvPost r => [r] | _ => [] end) tr.

(** The bindings registered with the execution collaborator, in order. *)
Definition bindings (tr : list Event) : list (str * str * str) :=
  flat_map (fun ev => match ev with
                      | EvSetenv n v d => [(n, v, d)]
                      | _ => []
                      end) tr.

(** A reply that the loop answers with an execution: non-empty and
    classified [CODE]. *)
Definition is_code (reply : option str) : bool :=
  match reply with
  | Some ((_ :: _) as r) => MsgType_eqb (msg_type (parse_reply r)) CODE
  | _ => false
  end.

(** The system-prompt discipline of a trace.  [called] says whether the
    model was called since the session began or its history was last
    cleared; [sp_flag] is its value after the trace, [sp_ok] says that no
    call made while it holds carries a system prompt. *)
Definition sp_step (called : bool) (ev : Event) : bool :=
  match ev with
  | EvLLM _ _ _ _ => true
  | EvLLMClear => false
  | _ => called
  end.

Definition sp_flag (called : bool) (tr : list Event) : bool :=
  fold_left sp_step tr called.

Fixpoint sp_ok (called : bool) (tr : list Event) : bool :=
  match tr with
  | [] => true
  | ev :: tr' =>
      match ev with
      | EvLLM _ (Some _) _ _ => negb called
      | _ => true
      end && sp_ok (sp_step called ev) tr'
  end.

(** [sub in s] *)
Definition contains (s sub : str) : Prop :=
  exists before after, s = before ++ sub ++ after.

(** The lines of a reply around its first runnable fence: no opener before
    it, an opener, interior lines none of which is a fence line, and a plain
    closing fence line. *)
Definition plain_closer (line : str) : bool :=
  is_fence line && negb (is_run_opener line).

Definition first_fence (lines pre : list str) (opener : str)
    (interior : list str) (closer : str) (post : list str) : Prop :=
  lines = pre ++ opener :: interior ++ closer :: post /\
  Forall (fun l => is_run_opener l = false) pre /\
  is_run_opener opener = true /\
  Forall (fun l => is_fence l = false) interior /\
  plain_closer closer = true.

Section Traces.

Context {C : Collab}.

(** What a run from [w] to [w'] added to the trace. *)
Definition new_events (w w' : World) : list Event :=
  skipn (List.length (trace (env w))) (trace (env w')).

(** *** Intermediate states of [publish] and of the loop *)

(** The environment in which the POST is made, and the state it leaves. *)
Definition staged (cert : str) (e : Env) : Env :=
  if negb (cert_staged e) then set_cert_file (Some cert) e else e.

Definition posted (w : World) (cert : str) (req : Request) (n : Net) : World :=
  mkWorld (self w) (emit_env (EvPost req) (set_net n (staged cert (env w)))).

(** The state after the loop has printed a non-empty reply. *)
Definition shown (reply : str) (w : World) : World :=
  mkWorld (self w)
    (emit_env
       (EvPrint [RStr (128229%N :: lit " "
                       ++ T (i18n_lang (env w)) "llm_response" []
                       ++ lit ":" ++ [NL]);
                 RMarkdown reply])
       (env w)).

(** The system prompt that [__call__] and [chat] pass to the model. *)
Definition prompt_for (w : World) : option str :=
  if llm_history (llm (self w)) then None else system_prompt (self w).

(** The first model call of [__call__]: the reply, and the state in which
    the loop starts. *)
Definition started (instruction : str) (llm_name : option str) (w : World)
    : option str * World :=
  let sp := prompt_for w in
  let a := if truthy sp then set_instruction (Some instruction) (self w)
           else self w in
  let '(reply, l') := llm_send (llm (self w)) instruction sp llm_name in
  (reply,
   mkWorld (set_llm l' a)
     (emit_env (EvLLM instruction sp llm_name reply)
        (emit_env
           (EvPrint [RStr (9654%N :: lit " [yellow]"
                           ++ T (i18n_lang (env w)) "start_instruction" []
                           ++ lit ":");
                     RStr (lit "[red]" ++ instruction)])
           (env w)))).

(** The state after the completion signal. *)
Definition finished (w : World) : World :=
  mkWorld (self w)
    (emit_env (EvWrite 1 [7; 7; 7]%N)
       (emit_env
          (EvPrint [RStr (NL :: 9209%N :: lit " "
                          ++ T (i18n_lang (env w)) "end_instruction" [])])
          (env w))).

(** The contract of the model collaborator: its history is non-empty once
    it has been sent something. *)
Definition records_history : Prop :=
  forall l content sp name,
    llm_history (snd (llm_send l content sp name)) = true.

(** An event that neither calls the model nor clears its history, and a
    computation that leaves the object alone and adds only such events. *)
Definition quiet_event (ev : Event) : bool :=
  match ev with
  | EvLLM _ _ _ _ | EvLLMClear => false
  | _ => true
  end.

Definition quiet {A} (m : M A) : Prop :=
  forall w,
    self (snd (m w)) = self w /\
    exists d,
      trace (env (snd (m w))) = trace (env w) ++ d /\
      Forall (fun ev => quiet_event ev = true) d.

End Traces.

(** ** Sample replies *)

Module Sample.

(** A runnable fence with two interior lines, with text around it. *)
Definition one_fence : str :=
  lit "Here:" ++ NL :: lit "```run" ++ NL :: lit "print(1)" ++ NL ::
  lit "print(2)" ++ NL :: lit "```" ++ NL :: lit "bye".

(** A runnable fence that is closed at once. *)
Definition empty_fence : str := lit "```run" ++ NL :: lit "```".



Definition plain : str := lit "All done." ++ NL :: lit "```python".

(** A reply whose runnable fence holds one statement. *)
Definition code_reply : str :=
  lit "```run" ++ NL :: lit "print(1)" ++ NL :: lit "```".

End Sample.

(** ** A scripted set of collaborators

    The test double of the scenarios: a model that gives its scripted
    replies in order and records what it was sent, a sandbox that keeps the
    registered bindings and echoes the code it is given, a transport that
    gives its scripted outcomes in order. *)

Module Mock.

Record MockLLM := mkLLM {
  script : list (option str);
  history : list str;
  last_message : option str
}.

Definition send (l : MockLLM) (content : str) (system_prompt name : option str)
    : option str * MockLLM :=
  match script l with
  | [] => (None, mkLLM [] (history l ++ [content]) (last_message l))
  | r :: rest => (r, mkLLM rest (history l ++ [content]) r)
  end.

Definition post (n : list (Exn + Response)) (req : Request)
    : (Exn + Response) * list (Exn + Response) :=
  match n with
  | [] => (inl (RequestException (lit "no route")), [])
  | r :: rest => (r, rest)
  end.

#[export] Instance collab : Collab := {|
  LLMConf := list (option str);
  LLM := MockLLM;
  llm_new := fun _ conf _ => mkLLM conf [] None;
  llm_history := fun l => match history l with [] => false | _ => true end;
  llm_send := send;
  llm_clear := fun l => mkLLM (script l) [] None;
  llm_get_last_message := last_message;
  Runner := list (str * str * str);
  RunResult := option str;
  runner_new := fun _ _ => [];
  runner_run := fun r code => (code, r);
  runner_setenv := fun r n v d => r ++ [(n, v, d)];
  runner_clear := fun _ => [];
  dumps_result := fun r => lit "{}";
  dumps := fun _ => lit "{}";
  T := fun _ key _ => lit key;
  export_html := fun _ _ => lit "<html/>";
  Net := list (Exn + Response);
  requests_post := post
|}.

(** The settings of a session whose model follows [replies]. *)
Definition config (replies : list (option str)) (url cert : option str)
    : Settings (list (option str)) :=
  mkSettings None None None (Some (lit "You are a helper")) (Some replies)
             None url cert.

Definition env0 (outcomes : list (Exn + Response)) : Env :=
  mkEnv None None (Some (lit "operator")) outcomes [].

(** The world after [Agent(settings)], or [None] when the constructor
    raised. *)
Definition start (cfg : Settings (list (option str)))
    (outcomes : list (Exn + Response)) : option World :=
  match __init__ cfg None (env0 outcomes) with
  | (Ok a, e) => Some (mkWorld a e)
  | _ => None
  end.

Definition world_with (replies : list (option str)) (url cert : option str)
    (llm : MockLLM) (outcomes : list (Exn + Response)) : World :=
  mkWorld
    (mkAgent (config replies url cert) None (mkConsole true)
             (Some (lit "You are a helper")) MAX_TOKENS llm [])
    (env0 outcomes).

(** A fresh session whose model follows [replies]. *)
Definition world (replies : list (option str)) : World :=
  world_with replies None None (mkLLM replies [] None) [].

(** A session with publishing configured and a scripted transport. *)
Definition publishing (outcomes : list (Exn + Response)) : World :=
  world_with [] (Some (lit "https://pub.example/api"))
             (Some (lit "-----BEGIN CERTIFICATE-----"))
             (mkLLM [] [] None) outcomes.

Definition created : Response :=
  mkResponse 201 (lit "{...}")
             (Some (JObj [(lit "id", JNum 7);
                          (lit "url", JStr (lit "https://pub.example/7"))])).

Definition created_without_url : Response :=
  mkResponse 201 (lit "{...}") (Some (JObj [(lit "id", JNum 7)])).

(** A session whose model history ends with a reply that holds code. *)
Definition resumable : World :=
  world_with [] None None
             (mkLLM [] [lit "print one"] (Some Sample.code_reply)) [].

End Mock.

(** ** Notions for the further properties *)

(** [a] is [b] with some items left out, the order kept. *)
Inductive subseq {A : Type} : list A -> list A -> Prop :=
| subseq_nil : subseq [] []
| subseq_skip (x : A) (a b : list A) : subseq a b -> subseq a (x :: b)
| subseq_keep (x : A) (a b : list A) : subseq a b -> subseq (x :: a) (x :: b).

(** The lines of a fence body that the scan keeps: all but opener lines. *)
Definition kept (body : list str) : list str :=
  filter (fun l => negb (is_run_opener l)) body.

(** The model name of each model call, in order. *)
Definition names (tr : list Event) : list (option str) :=
  flat_map (fun ev => match ev with EvLLM _ _ n _ => [n] | _ => [] end) tr.

(** What each model call was sent, in order. *)
Definition sent (tr : list Event) : list str :=
  flat_map (fun ev => match ev with EvLLM c _ _ _ => [c] | _ => [] end) tr.

(** What was written with [os.write], in order. *)
Definition writes (tr : list Event) : list (Z * list N) :=
  flat_map (fun ev => match ev with EvWrite fd d => [(fd, d)] | _ => [] end) tr.

(** A call of [clear]. *)
Definition is_clear (o : Op) : bool :=
  match o with
  | OpClear => true
  | _ => false
  end.

Section Assembly.

Context {C : Collab}.

(** The language in force once [_init] has read [lang]. *)
Definition lang_after (config : Settings LLMConf) (e : Env) : option str :=
  if truthy (cfg_lang config) then cfg_lang config else i18n_lang e.

(** The bindings that an [env] mapping declares: the entries whose value is
    not blank, with the value stripped. *)
Definition declared_env (envs : list (str * (str * str)))
    : list (str * str * str) :=
  flat_map (fun entry =>
              let '(name, (value, desc)) := entry in
              if nonempty (strip value) then [(name, strip value, desc)]
              else [])
           envs.

Definition envs_of (conf : ApiConf) : list (str * (str * str)) :=
  match api_env conf with
  | Some envs => envs
  | None => []
  end.

Definition declared_bindings (api : list (str * ApiConf))
    : list (str * str * str) :=
  flat_map (fun entry => declared_env (envs_of (snd entry))) api.

(** The prompt line of a binding. *)
Definition binding_line (b : str * str * str) : str :=
  let '(name, _, desc) := b in lit "- " ++ name ++ lit ": " ++ desc.

(** The lines that one entry of [api] adds to the prompt. *)
Definition api_section (lang : option str) (entry : str * ApiConf)
    : list str :=
  let '(api_name, conf) := entry in
  (lit "## " ++ api_name ++ lit " API")
  :: match envs_of conf with
     | [] => []
     | _ :: _ =>
         (lit "### " ++ T lang "env_description" [])
         :: List.map binding_line (declared_env (envs_of conf))
     end
  ++ match api_desc conf with
     | Some ((_ :: _) as desc) =>
         [lit "### API " ++ T lang "description" [] ++ NL :: desc]
     | _ => []
     end.

Definition api_sections (lang : option str) (api : list (str * ApiConf))
    : list str :=
  flat_map (api_section lang) api.

(** Registering bindings with the execution collaborator, in order. *)
Definition register (bs : list (str * str * str)) (r : Runner) : Runner :=
  fold_left (fun r b => let '(name, value, desc) := b in
                        runner_setenv r name value desc) bs r.

Definition setenv_events (bs : list (str * str * str)) : list Event :=
  List.map (fun b => let '(name, value, desc) := b in EvSetenv name value desc)
           bs.

(** An event of the console or of the transport. *)
Definition console_or_post (ev : Event) : bool :=
  match ev with
  | EvPrint _ | EvPrintException _ | EvPost _ => true
  | _ => false
  end.

(** A computation that leaves the object alone and adds only events that
    satisfy [P]. *)
Definition emits_only (P : Event -> bool) {A : Type} (m : M A) : Prop :=
  forall w,
    self (snd (m w)) = self w /\
    exists d,
      trace (env (snd (m w))) = trace (env w) ++ d /\
      forallb P d = true.

End Assembly.

(** ** Further sample sessions *)

Module Scene.

(** A session without a system prompt. *)
Definition no_prompt (replies : list (option str)) : @World Mock.collab :=
  mkWorld
    (@mkAgent Mock.collab
       (mkSettings None None None None (Some replies) None None None)
       None (mkConsole true) None MAX_TOKENS (Mock.mkLLM replies [] None) [])
    (Mock.env0 []).

(** A configuration with two capabilities: the first declares one binding
    and one blank value, the second has only a description. *)
Definition two_apis : Settings (list (option str)) :=
  mkSettings (Some (lit "en")) None (Some 1024%Z) (Some (lit "Base"))
    (Some [])
    (Some [(lit "Weather",
            mkApiConf (Some [(lit "KEY", (lit " abc ", lit "the key"));
                             (lit "OLD", (lit "   ", lit "unused"))])
                      None);
           (lit "Clock", mkApiConf None (Some (lit "Tells time")))])
    None None.

(** The same without the [llm] entry, and without the system prompt. *)
Definition no_llm : Settings (list (option str)) :=
  mkSettings (Some (lit "en")) None None (Some (lit "Base")) None
    (cfg_api two_apis) None None.



Definition no_login (outcomes : list (Exn + Response)) : @World Mock.collab :=
  mkWorld (self (Mock.publishing outcomes))
          (@mkEnv Mock.collab None None None outcomes []).

Definition created_list : Response :=
  mkResponse 201 (lit "[]") (Some (JArr [])).

(** What a transport that cannot reach the server raises. *)
Definition timeout : Exn := RequestException (lit "timed out").

(** The configuration of the prompt-assembly scenario as it is written,
    with [system_prompt] and [api] and nothing else. *)
Definition weather_as_written : Settings (list (option str)) :=
  mkSettings None None None (Some (lit "Base")) None
    (Some [(lit "Weather",
            mkApiConf (Some [(lit "API_KEY", (lit "abc", lit "key"))])
                      (Some (lit "Gets weather")))])
    None None.

End Scene.

(** * Properties *)

(** ** Lines and fences *)

Lemma startswith_app (s p q : str) :
  startswith s (p ++ q) = true -> startswith s p = true.
Proof.
  revert s; induction p as [|c p IH]; intros s H; [reflexivity|].
  destruct s as [|d s]; simpl in *; [discriminate|].
  apply andb_true_iff in H as [Hd Hs].
  rewrite Hd; simpl; auto.
Qed.

Lemma run_opener_is_fence (line : str) :
  is_run_opener line = true -> is_fence line = true.
Proof.
  unfold is_run_opener, is_fence; intros H.
  apply startswith_app with (q := lit "run"); exact H.
Qed.

Lemma not_fence_not_opener (line : str) :
  is_fence line = false -> is_run_opener line = false.
Proof.
  intros H; destruct (is_run_opener line) eqn:E; [|reflexivity].
  apply run_opener_is_fence in E; congruence.
Qed.

(** Outside a fence, lines that open nothing are passed over. *)
Lemma scan_lines_outside (pre rest acc : list str) :
  Forall (fun l => is_run_opener l = false) pre ->
  scan_lines (pre ++ rest) false acc = scan_lines rest false acc.
Proof.
  induction 1 as [|l pre Hl _ IH]; simpl; [reflexivity|].
  rewrite Hl, andb_false_r; exact IH.
Qed.

(** Inside a fence, lines that are no fence lines are collected as they are. *)
Lemma scan_lines_inside (interior rest acc : list str) :
  Forall (fun l => is_fence l = false) interior ->
  scan_lines (interior ++ rest) true acc
  = scan_lines rest true (acc ++ interior).
Proof.
  intros H; revert acc; induction H as [|l interior Hl _ IH]; intros acc; simpl.
  - now rewrite app_nil_r.
  - rewrite (not_fence_not_opener _ Hl), Hl; simpl.
    rewrite IH, <- app_assoc; reflexivity.
Qed.

(** A plain closing fence line ends the scan. *)
Lemma scan_lines_closer (closer : str) (post acc : list str) :
  plain_closer closer = true ->
  scan_lines (closer :: post) true acc = acc.
Proof.
  unfold plain_closer; intros H.
  apply andb_true_iff in H as [Hf Hr].
  apply negb_true_iff in Hr.
  simpl; now rewrite Hr, Hf.
Qed.

(** What the scan collects from a reply with a first runnable fence. *)
Lemma scan_lines_first_fence lines pre opener interior closer post :
  first_fence lines pre opener interior closer post ->
  scan_lines lines false [] = interior.
Proof.
  intros (-> & Hpre & Hop & Hint & Hcl).
  rewrite scan_lines_outside by exact Hpre.
  simpl; rewrite Hop.
  rewrite scan_lines_inside by exact Hint.
  now rewrite scan_lines_closer.
Qed.

(** A reply without an opener has nothing collected. *)
Lemma scan_lines_no_opener (lines : list str) :
  Forall (fun l => is_run_opener l = false) lines ->
  scan_lines lines false [] = [].
Proof.
  intros H.
  rewrite <- (app_nil_r lines), scan_lines_outside by exact H.
  reflexivity.
Qed.

(** [split] and [join] are inverse to each other. *)
Lemma split_nl_nonempty (s : str) : split_nl s <> [].
Proof.
  destruct s as [|c s]; simpl; [discriminate|].
  destruct (char_eqb c NL); [discriminate|].
  destruct (split_nl s); discriminate.
Qed.

Lemma join_split_nl (s : str) : join_nl (split_nl s) = s.
Proof.
  induction s as [|c s IH]; [reflexivity|].
  simpl. destruct (char_eqb c NL) eqn:E.
  - apply N.eqb_eq in E; subst c.
    pose proof (split_nl_nonempty s) as Hne.
    destruct (split_nl s) as [|l ls]; [contradiction|].
    simpl in *; now rewrite IH.
  - pose proof (split_nl_nonempty s) as Hne.
    destruct (split_nl s) as [|l ls]; [contradiction|].
    destruct ls; simpl in *; now rewrite <- IH.
Qed.

Lemma split_nl_line (l : str) :
  ~ In NL l -> split_nl l = [l].
Proof.
  induction l as [|c l IH]; intros H; [reflexivity|].
  simpl. destruct (char_eqb c NL) eqn:E.
  - apply N.eqb_eq in E; subst c; exfalso; apply H; now left.
  - rewrite IH; [reflexivity|]. intros Hin; apply H; now right.
Qed.

Lemma split_nl_cons_line (l rest : str) :
  ~ In NL l -> split_nl (l ++ NL :: rest) = l :: split_nl rest.
Proof.
  induction l as [|c l IH]; intros H; simpl.
  - reflexivity.
  - destruct (char_eqb c NL) eqn:E.
    + apply N.eqb_eq in E; subst c; exfalso; apply H; now left.
    + rewrite IH; [reflexivity|]. intros Hin; apply H; now right.
Qed.

Lemma split_join_nl (ls : list str) :
  ls <> [] -> Forall (fun l => ~ In NL l) ls -> split_nl (join_nl ls) = ls.
Proof.
  intros Hne H; induction H as [|l ls Hl Hls IH]; [contradiction|].
  destruct ls as [|l' ls].
  - simpl; now apply split_nl_line.
  - change (join_nl (l :: l' :: ls)) with (l ++ NL :: join_nl (l' :: ls)).
    rewrite split_nl_cons_line by exact Hl.
    rewrite IH; [reflexivity | discriminate].
Qed.

Lemma split_nl_no_break (s : str) :
  Forall (fun l => ~ In NL l) (split_nl s).
Proof.
  induction s as [|c s IH]; simpl.
  - constructor; [intros []|constructor].
  - destruct (char_eqb c NL) eqn:E.
    + constructor; [intros []|exact IH].
    + destruct (split_nl s) as [|l ls].
      * constructor; [|constructor].
        intros [H|[]]; subst c; discriminate.
      * inversion IH as [|? ? Hl Hls]; subst.
        constructor; [|exact Hls].
        intros [H|H]; [subst c; discriminate | now apply Hl].
Qed.

(** ** The reply classifier *)

(** C3, as amended: when the first runnable fence of a reply is properly
    closed and holds at least one interior line, [parse_reply] returns [CODE]
    and the payload is the interior lines joined by line breaks, fence lines
    left out (the reply itself being its lines joined by line breaks); when
    no line of the reply opens a runnable fence, it returns [TEXT] and no
    code. *)
Theorem parse_reply_first_fence :
  (forall text pre opener interior closer post,
      first_fence (split_nl text) pre opener interior closer post ->
      interior <> [] ->
      parse_reply text = mkMsg CODE (Some (join_nl interior)) /\
      text = join_nl (pre ++ opener :: interior ++ closer :: post)) /\
  (forall text,
      Forall (fun l => is_run_opener l = false) (split_nl text) ->
      parse_reply text = mkMsg TEXT None).
Proof.
  split.
  - intros text pre opener interior closer post Hf Hne.
    split.
    + unfold parse_reply.
      rewrite (scan_lines_first_fence Hf).
      destruct interior; [contradiction | reflexivity].
    + destruct Hf as (Hl & _). rewrite <- Hl. symmetry; apply join_split_nl.
  - intros text H. unfold parse_reply.
    now rewrite scan_lines_no_opener.
Qed.

Lemma parse_reply_first_fence_witness :
  (first_fence (split_nl Sample.one_fence) [lit "Here:"] (lit "```run")
               [lit "print(1)"; lit "print(2)"] (lit "```") [lit "bye"] /\
   parse_reply Sample.one_fence
   = mkMsg CODE (Some (lit "print(1)" ++ NL :: lit "print(2)"))) /\
  parse_reply Sample.plain = mkMsg TEXT None.
Proof.
  assert (Hf : first_fence (split_nl Sample.one_fence) [lit "Here:"]
                 (lit "```run") [lit "print(1)"; lit "print(2)"] (lit "```")
                 [lit "bye"]).
  { repeat split; repeat constructor. }
  split; [split; [exact Hf|]|].
  - apply (proj1 parse_reply_first_fence _ _ _ _ _ _ Hf). discriminate.
  - apply (proj2 parse_reply_first_fence). repeat constructor.
Defined.

(** C3 as stated fails when the fence is closed at once: nothing was
    collected, and the reply is classified [TEXT]. *)
Lemma parse_reply_closed_fence_counterexample :
  first_fence (split_nl Sample.empty_fence) [] (lit "```run") [] (lit "```") []
  /\ parse_reply Sample.empty_fence <> mkMsg CODE (Some (join_nl []))
  /\ parse_reply Sample.empty_fence = mkMsg TEXT None.
Proof.
  split; [repeat split; repeat constructor|].
  split; [discriminate | reflexivity].
Qed.




(** C9: a runnable opener line followed at once by a closing fence line is
    classified [TEXT] with no code, not [CODE] with an empty string; [CODE]
    is returned only when the scan collected at least one line, and the
    payload is then those lines joined. *)
Theorem parse_reply_empty_fence_is_text :
  (forall opener closer,
      ~ In NL opener -> ~ In NL closer ->
      is_run_opener opener = true -> is_fence closer = true ->
      parse_reply (opener ++ NL :: closer) = mkMsg TEXT None) /\
  (forall text,
      msg_type (parse_reply text) = CODE ->
      scan_lines (split_nl text) false [] <> [] /\
      msg_code (parse_reply text)
      = Some (join_nl (scan_lines (split_nl text) false []))).
Proof.
  split.
  - intros opener closer Ho Hc Hop Hcl.
    unfold parse_reply.
    rewrite split_nl_cons_line, split_nl_line by assumption.
    simpl. rewrite Hop.
    destruct (is_run_opener closer); [reflexivity|].
    now rewrite Hcl.
  - intros text. unfold parse_reply.
    destruct (scan_lines (split_nl text) false []); simpl.
    + discriminate.
    + intros _; split; [discriminate | reflexivity].
Qed.

Lemma parse_reply_empty_fence_is_text_witness :
  parse_reply (lit "  ```run python" ++ NL :: lit "```") = mkMsg TEXT None /\
  scan_lines (split_nl Sample.code_reply) false [] <> [].
Proof.
  split.
  - apply (proj1 parse_reply_empty_fence_is_text).
    + vm_compute; intuition discriminate.
    + vm_compute; intuition discriminate.
    + reflexivity.
    + reflexivity.
  - apply (proj2 parse_reply_empty_fence_is_text). reflexivity.
Defined.

(** ** Publishing *)

Section PublishProofs.

Context {C : Collab}.

Lemma new_events_app (w w' : World) (d : list Event) :
  trace (env w') = trace (env w) ++ d -> new_events w w' = d.
Proof.
  unfold new_events; intros ->.
  rewrite skipn_app, skipn_all, Nat.sub_diag; reflexivity.
Qed.

Lemma publish_upload (w : World) title author url cert who :
  cfg_publish_url (settings (self w)) = Some url -> nonempty url = true ->
  cfg_publish_cert (settings (self w)) = Some cert -> nonempty cert = true ->
  py_or author (os_login (env w)) = Some who ->
  let req := publish_request url (py_or title (instruction (self w))) who w in
  publish title author w
  = match requests_post (net (env w)) req with
    | (inl e, n) => (Raise TypeError, posted w cert req n)
    | (inr response, n) =>
        (if (status_code response =? 201)%Z then
           bind (T_ "upload_success" []) (fun t =>
           bind (response_json response) (fun v =>
           bind (subscript v "url") (fun u =>
           console_print [RStr (lit "[green]" ++ t ++ lit ":"); RJson u])))
         else
           bind (T_ "upload_failed" [status_code response]) (fun t =>
           console_print [RStr (lit "[red]" ++ t ++ lit ":");
                          RStr (text response)]))
          (posted w cert req n)
    end.
Proof.
  intros Hu Hun Hc Hcn Ha req.
  unfold publish, bind at 1, get. simpl.
  rewrite Hu, Hc.
  destruct url as [|u0 url]; [discriminate|].
  destruct cert as [|c0 cert]; [discriminate|].
  assert (Hauth : match author with
                  | Some ((_ :: _) as a) => ret a
                  | _ => os_getlogin
                  end w = (Ok who, w)).
  { unfold py_or in Ha.
    destruct author as [[|a0 a]|]; simpl in Ha;
      try (injection Ha as <-; reflexivity);
      unfold os_getlogin, bind, get; rewrite Ha; reflexivity. }
  unfold bind at 1. rewrite Hauth.
  unfold staged, posted.
  destruct (cert_staged (env w)) eqn:Hst; simpl;
    unfold bind at 1; simpl;
    unfold bind at 1, try_except, bind at 1, post; simpl;
    fold req; destruct (requests_post (net (env w)) req) as [[e|response] n];
    simpl.
  all: try reflexivity.
  all: unfold staged; rewrite Hst; reflexivity.
Qed.

(** C7: when the configured publish URL or the configured certificate is
    absent (or empty), [publish] returns without raising, having printed the
    "publishing disabled" message and nothing else: no request is posted and
    nothing but the trace has changed. *)
Theorem publish_disabled_without_url_or_cert :
  forall (w : World) (title author : option str),
    truthy (cfg_publish_url (settings (self w))) = false \/
    truthy (cfg_publish_cert (settings (self w))) = false ->
    let out := publish title author w in
    fst out = Ok tt /\
    snd out
    = mkWorld (self w)
        (emit_env
           (EvPrint [RStr (lit "[red]"
                           ++ T (i18n_lang (env w)) "publish_disabled" [])])
           (env w)) /\
    posts (new_events w (snd out)) = [].
Proof.
  intros w title author H.
  assert (E : publish title author w
              = (Ok tt,
                 mkWorld (self w)
                   (emit_env
                      (EvPrint
                         [RStr (lit "[red]"
                                ++ T (i18n_lang (env w)) "publish_disabled" [])])
                      (env w)))).
  { unfold publish, bind at 1, get.
    destruct (cfg_publish_url (settings (self w))) as [[|u0 url]|];
      destruct (cfg_publish_cert (settings (self w))) as [[|c0 cert]|];
      try reflexivity.
    destruct H as [H|H]; discriminate H. }
  simpl. rewrite E. simpl.
  repeat split.
  erewrite new_events_app; [|simpl; reflexivity]. reflexivity.
Qed.

(** C8, what a call of [publish] that reaches the upload (URL and
    certificate configured, an author given or a login name available) does
    in each case.  When the response has status 201 and its body is a JSON
    object with a ["url"] member, it returns having printed the success
    message with that member.  When the status is anything else, it returns
    having printed the failure message for the status code with the raw
    body.  When the POST raises, the handler's call of [print_exception]
    raises [TypeError]: the exception is not reported, and [publish] does not
    return but lets that [TypeError] through, with nothing printed after the
    POST. *)
Theorem publish_reports_upload_outcome :
  forall (w : World) (title author : option str) (url cert who : str),
    cfg_publish_url (settings (self w)) = Some url -> nonempty url = true ->
    cfg_publish_cert (settings (self w)) = Some cert -> nonempty cert = true ->
    py_or author (os_login (env w)) = Some who ->
    let req := publish_request url (py_or title (instruction (self w))) who w in
    let lang := i18n_lang (env w) in
    let out := publish title author w in
    match fst (requests_post (net (env w)) req) with
    | inl e =>
        fst out = Raise TypeError /\
        new_events w (snd out) = [EvPost req]
    | inr response =>
        if (status_code response =? 201)%Z then
          forall v u,
            json_body response = Some v -> getitem v "url" = inr u ->
            fst out = Ok tt /\
            new_events w (snd out)
            = [EvPost req;
               EvPrint [RStr (lit "[green]" ++ T lang "upload_success" []
                              ++ lit ":");
                        RJson u]]
        else
          fst out = Ok tt /\
          new_events w (snd out)
          = [EvPost req;
             EvPrint [RStr (lit "[red]"
                            ++ T lang "upload_failed" [status_code response]
                            ++ lit ":");
                      RStr (text response)]]
    end.
Proof.
  intros w title author url cert who Hu Hun Hc Hcn Ha req lang out.
  subst out. rewrite (publish_upload w title author Hu Hun Hc Hcn Ha).
  fold req.
  destruct (requests_post (net (env w)) req) as [[e|response] n]; simpl.
  - split; [reflexivity|].
    apply new_events_app. simpl.
    unfold staged; destruct (negb (cert_staged (env w))); reflexivity.
  - destruct (status_code response =? 201)%Z.
    + intros v u Hv Hg.
      unfold bind, T_, get, ret, response_json, subscript.
      simpl. rewrite Hv. simpl. rewrite Hg. simpl.
      split; [reflexivity|].
      apply new_events_app. simpl.
      unfold staged; destruct (negb (cert_staged (env w))); simpl;
        rewrite <- app_assoc; reflexivity.
    + unfold bind, T_, get, ret. simpl.
      split; [reflexivity|].
      apply new_events_app. simpl.
      unfold staged; destruct (negb (cert_staged (env w))); simpl;
        rewrite <- app_assoc; reflexivity.
Qed.

(** C10: when [publish] receives a response with status 201 whose body is
    not a JSON document, or is a JSON object without a ["url"] member, the
    exception raised while reading the body leaves [publish]: only the POST
    is inside the handler.  Nothing is printed after the POST. *)
Theorem publish_success_body_errors_escape :
  forall (w : World) (title author : option str) (url cert who : str)
         (response : Response) (n : Net),
    cfg_publish_url (settings (self w)) = Some url -> nonempty url = true ->
    cfg_publish_cert (settings (self w)) = Some cert -> nonempty cert = true ->
    py_or author (os_login (env w)) = Some who ->
    let req := publish_request url (py_or title (instruction (self w))) who w in
    let out := publish title author w in
    requests_post (net (env w)) req = (inr response, n) ->
    status_code response = 201%Z ->
    (json_body response = None ->
     fst out = Raise JSONDecodeError /\ new_events w (snd out) = [EvPost req])
    /\
    (forall members,
        json_body response = Some (JObj members) ->
        find (fun kv => PyStr.eqb (fst kv) (lit "url")) members = None ->
        fst out = Raise (KeyError "url") /\
        new_events w (snd out) = [EvPost req]).
Proof.
  intros w title author url cert who response n Hu Hun Hc Hcn Ha req out
         Hpost Hst.
  subst out. rewrite (publish_upload w title author Hu Hun Hc Hcn Ha).
  fold req. rewrite Hpost, Hst. simpl.
  split.
  - intros Hb.
    unfold bind, T_, get, ret, response_json. simpl. rewrite Hb. simpl.
    split; [reflexivity|]. apply new_events_app. simpl.
    unfold staged; destruct (negb (cert_staged (env w))); reflexivity.
  - intros members Hb Hfind.
    unfold bind, T_, get, ret, response_json, subscript.
    simpl. rewrite Hb. simpl. unfold getitem. rewrite Hfind. simpl.
    split; [reflexivity|]. apply new_events_app. simpl.
    unfold staged; destruct (negb (cert_staged (env w))); reflexivity.
Qed.

End PublishProofs.

(** ** Prompt assembly *)

Section InitProofs.

Context {C : Collab}.

(** C6, as amended: for the configuration [{system_prompt: "Base", api:
    {"Weather": {env: {API_KEY: ("abc", "key")}, desc: "Gets weather"}}}]
    completed with an [llm] entry, whatever it holds, the constructor
    returns an agent whose system prompt is "Base", the "## Weather API"
    header, the environment-description header with the line
    "- API_KEY: key", and the description header with "Gets weather", one per
    line; and it registers exactly one binding, [API_KEY = "abc"], with the
    execution collaborator. *)
Theorem init_assembles_weather_prompt :
  forall (llm_conf : LLMConf) (console : option Console) (e : Env),
    let t := T (i18n_lang e) in
    let con := match console with Some c => c | None => mkConsole true end in
    let env_section :=
      lit "### " ++ t "env_description"%string [] ++ NL :: lit "- API_KEY: key" in
    let desc_section :=
      lit "### API " ++ t "description"%string [] ++ NL :: lit "Gets weather" in
    let prompt :=
      lit "Base" ++ NL :: lit "## Weather API" ++ NL :: env_section
      ++ NL :: desc_section in
    exists a e',
      __init__ (weather_config llm_conf) console e = (Ok a, e') /\
      system_prompt a = Some prompt /\
      contains prompt (lit "Base") /\
      contains prompt (lit "## Weather API") /\
      contains prompt env_section /\
      contains prompt desc_section /\
      trace e' = trace e ++ [EvSetenv (lit "API_KEY") (lit "abc") (lit "key")] /\
      bindings (skipn (List.length (trace e)) (trace e'))
      = [(lit "API_KEY", lit "abc", lit "key")] /\
      runner a
      = runner_setenv (runner_new con (weather_config llm_conf))
                      (lit "API_KEY") (lit "abc") (lit "key").
Proof.
  intros llm_conf console e t con env_section desc_section prompt.
  eexists; eexists.
  split; [reflexivity|].
  split.
  { subst prompt env_section desc_section t. simpl.
    rewrite <- !app_assoc. reflexivity. }
  split; [exists [], (skipn 4 prompt); reflexivity|].
  split.
  { exists (lit "Base" ++ [NL]), (NL :: env_section ++ NL :: desc_section).
    reflexivity. }
  split.
  { exists (lit "Base" ++ NL :: lit "## Weather API" ++ [NL]),
           (NL :: desc_section).
    reflexivity. }
  split.
  { exists (lit "Base" ++ NL :: lit "## Weather API" ++ NL :: env_section
            ++ [NL]), [].
    rewrite app_nil_r. subst prompt env_section. simpl.
    rewrite <- !app_assoc. reflexivity. }
  split; [reflexivity|].
  split; [|reflexivity].
  simpl. rewrite skipn_app, skipn_all, Nat.sub_diag. reflexivity.
Qed.

End InitProofs.

(** C6 as stated fails: the configuration as the claim writes it has no
    [llm] entry, and the constructor raises [KeyError] when it reads that
    entry, before any section is added to the prompt or any binding is
    registered. *)
Lemma init_weather_as_written_counterexample :
  cfg_llm Scene.weather_as_written = None /\
  fst (@__init__ Mock.collab Scene.weather_as_written None (Mock.env0 []))
  = Raise (KeyError "llm") /\
  bindings
    (trace (snd (@__init__ Mock.collab Scene.weather_as_written None
                   (Mock.env0 []))))
  = [].
Proof. repeat split. Qed.

(** ** Resuming *)

Section StepProofs.

Context {C : Collab}.

(** What [step] does, in both cases. *)
Lemma step_cases (w : World) :
  (truthy (llm_get_last_message (llm (self w))) = false ->
   step w
   = (Ok tt,
      mkWorld (self w)
        (emit_env
           (EvPrint [RStr (10060%N :: lit " "
                           ++ T (i18n_lang (env w)) "no_context" [])])
           (env w)))) /\
  (truthy (llm_get_last_message (llm (self w))) = true ->
   step w = (Raise (AttributeError "process_reply"), w)).
Proof.
  unfold step, bind, get; simpl.
  split; intros ->; reflexivity.
Qed.

End StepProofs.

(** C5, on a session whose last model message holds a runnable fence: the
    main loop's branch classifies that message and executes its code, while
    [step] raises [AttributeError] on the missing [process_reply] and leaves
    the session as it was, nothing classified and nothing executed.  On a
    session without a last message [step] prints the "no context" message and
    does nothing else. *)
Theorem step_with_context_raises :
  llm_get_last_message (llm (self Mock.resumable)) = Some Sample.code_reply /\
  step Mock.resumable
  = (Raise (AttributeError "process_reply"), Mock.resumable) /\
  runs (new_events Mock.resumable
          (snd (while_response 2 (Some Sample.code_reply) Mock.resumable)))
  = [Some (lit "print(1)")] /\
  step (Mock.world [])
  = (Ok tt,
     mkWorld (self (Mock.world []))
       (emit_env (EvPrint [RStr (10060%N :: lit " no_context")])
                 (env (Mock.world [])))).
Proof.
  repeat split.
Qed.


(** ** The instruction loop *)

Lemma sp_flag_app (c : bool) (a b : list Event) :
  sp_flag c (a ++ b) = sp_flag (sp_flag c a) b.
Proof. apply fold_left_app. Qed.

Lemma sp_ok_app (c : bool) (a b : list Event) :
  sp_ok c (a ++ b) = sp_ok c a && sp_ok (sp_flag c a) b.
Proof.
  revert c; induction a as [|ev a IH]; intros c; simpl; [reflexivity|].
  rewrite IH, andb_assoc; reflexivity.
Qed.

Lemma replies_app (a b : list Event) : replies (a ++ b) = replies a ++ replies b.
Proof. apply flat_map_app. Qed.

Lemma runs_app (a b : list Event) : runs (a ++ b) = runs a ++ runs b.
Proof. apply flat_map_app. Qed.

Lemma prompts_app (a b : list Event) : prompts (a ++ b) = prompts a ++ prompts b.
Proof. apply flat_map_app. Qed.

Section LoopProofs.

Context {C : Collab}.

#[local] Arguments parse_reply : simpl never.
#[local] Arguments lit : simpl never.

(** One execution-feedback cycle: the code is run once, the serialized
    result is sent to the model without a system prompt, and the model's
    reply is returned. *)
Lemma process_code_reply_cycle (msg : Msg) (w : World) :
  exists reply w' p1 p2 p3 content,
    process_code_reply msg w = (Ok reply, w') /\
    trace (env w')
    = trace (env w)
      ++ [EvPrint p1; EvRun (msg_code msg); EvPrint p2; EvPrint p3;
          EvLLM content None None reply] /\
    (reply, llm (self w')) = llm_send (llm (self w)) content None None /\
    instruction (self w') = instruction (self w) /\
    system_prompt (self w') = system_prompt (self w).
Proof.
  unfold process_code_reply, bind, T_, get, ret, console_print, emit,
    runner_call, llm_call; simpl.
  destruct (runner_run (runner (self w)) (msg_code msg)) as [result r'].
  simpl.
  destruct (llm_send (llm (self w)) (dumps_result result) None None)
    as [reply l'] eqn:E.
  simpl.
  do 6 eexists.
  split; [reflexivity|].
  simpl. rewrite <- !app_assoc. simpl.
  split; [reflexivity|].
  rewrite E. repeat split.
Qed.

Lemma while_response_turn (fuel : nat) (c : char) (s : str) (w : World) :
  while_response (S fuel) (Some (c :: s)) w
  = if MsgType_eqb (msg_type (parse_reply (c :: s))) CODE
    then bind (process_code_reply (parse_reply (c :: s)))
              (fun r => while_response fuel r) (shown (c :: s) w)
    else (Ok tt, shown (c :: s) w).
Proof.
  simpl. unfold bind at 1, T_, bind at 1, get, ret. simpl.
  unfold bind at 1, console_print, emit. simpl.
  destruct (MsgType_eqb (msg_type (parse_reply (c :: s))) CODE); reflexivity.
Qed.

(** The replies the loop handles are CODE replies up to the one it stops
    at; each CODE reply has its payload run once, in order; it stops with
    [Ok] at a reply that is [TEXT] or empty, and runs out of fuel only after
    [fuel] CODE replies. *)
Lemma while_response_shape (fuel : nat) :
  forall (response : option str) (w : World),
  exists res w' d codes last,
    while_response fuel response w = (res, w') /\
    trace (env w') = trace (env w) ++ d /\
    response :: replies d = List.map Some codes ++ [last] /\
    Forall (fun r => is_code (Some r) = true) codes /\
    runs d = List.map (fun r => msg_code (parse_reply r)) codes /\
    ((res = Ok tt /\ is_code last = false) \/
     (res = OutOfFuel /\ List.length codes = fuel /\ truthy last = true)).
Proof.
  induction fuel as [|fuel IH]; intros response w.
  - destruct response as [[|c s]|]; simpl.
    + exists (Ok tt), w, [], [], (Some []).
      rewrite app_nil_r. repeat split; auto.
    + exists OutOfFuel, w, [], [], (Some (c :: s)).
      rewrite app_nil_r. repeat split; auto.
    + exists (Ok tt), w, [], [], None.
      rewrite app_nil_r. repeat split; auto.
  - destruct response as [[|c s]|].
    + exists (Ok tt), w, [], [], (Some []).
      rewrite app_nil_r. repeat split; auto.
    + rewrite while_response_turn.
      destruct (MsgType_eqb (msg_type (parse_reply (c :: s))) CODE) eqn:Ecode.
      * destruct (process_code_reply_cycle (parse_reply (c :: s))
                    (shown (c :: s) w))
          as (reply & w1 & p1 & p2 & p3 & content & Hp & Ht1 & _).
        unfold bind. rewrite Hp.
        destruct (IH reply w1)
          as (res & w' & d & codes & last & Hw & Ht & Hr & Hc & Hruns & Hres).
        exists res, w',
          (EvPrint [RStr (128229%N :: lit " "
                          ++ T (i18n_lang (env w)) "llm_response" []
                          ++ lit ":" ++ [NL]);
                    RMarkdown (c :: s)]
           :: [EvPrint p1; EvRun (msg_code (parse_reply (c :: s)));
               EvPrint p2; EvPrint p3; EvLLM content None None reply] ++ d),
          ((c :: s) :: codes), last.
        split; [exact Hw|].
        split.
        { rewrite Ht, Ht1. simpl. rewrite <- !app_assoc. reflexivity. }
        split; [simpl; simpl in Hr; rewrite Hr; reflexivity|].
        split; [constructor; [exact Ecode | exact Hc]|].
        split; [simpl; rewrite Hruns; reflexivity|].
        destruct Hres as [Hres|(Hres & Hlen & Hlast)]; [left; exact Hres|].
        right. repeat split; auto. simpl; now rewrite Hlen.
      * exists (Ok tt), (shown (c :: s) w),
          [EvPrint [RStr (128229%N :: lit " "
                          ++ T (i18n_lang (env w)) "llm_response" []
                          ++ lit ":" ++ [NL]);
                    RMarkdown (c :: s)]],
          [], (Some (c :: s)).
        repeat split; auto.
    + exists (Ok tt), w, [], [], None.
      rewrite app_nil_r. repeat split; auto.
Qed.

(** [__call__] is the first model call, the loop, and the completion
    signal when the loop ends. *)
Lemma call_eq (fuel : nat) (instruction : str) (llm_name : option str)
    (w : World) :
  __call__ fuel instruction llm_name w
  = match while_response fuel (fst (started instruction llm_name w))
                         (snd (started instruction llm_name w)) with
    | (Ok _, w') => (Ok tt, finished w')
    | (Raise e, w') => (Raise e, w')
    | (OutOfFuel, w') => (OutOfFuel, w')
    end.
Proof.
  unfold __call__, started, prompt_for.
  unfold bind at 1, T_, bind at 1, get, ret. simpl.
  unfold bind at 1, console_print, emit. simpl.
  unfold bind at 1. simpl.
  unfold bind at 1.
  set (sp := if llm_history (llm (self w)) then None else system_prompt (self w)).
  destruct (truthy sp); unfold modify_self; simpl;
    unfold bind at 1, llm_call; simpl;
    destruct (llm_send (llm (self w)) instruction sp llm_name) as [reply l'];
    simpl; unfold bind at 1;
    match goal with
    | |- context [while_response fuel reply ?x] =>
        destruct (while_response fuel reply x) as [[[]|e|] w2]
    end; reflexivity.
Qed.

Lemma started_trace (instruction : str) (llm_name : option str) (w : World) :
  exists p,
    trace (env (snd (started instruction llm_name w)))
    = trace (env w)
      ++ [EvPrint p;
          EvLLM instruction (prompt_for w) llm_name
                (fst (started instruction llm_name w))].
Proof.
  unfold started.
  destruct (llm_send (llm (self w)) instruction (prompt_for w) llm_name)
    as [reply l'].
  simpl. eexists. rewrite <- app_assoc. reflexivity.
Qed.

(** The shape of every run of [__call__]. *)
Lemma call_shape (fuel : nat) (instruction : str) (llm_name : option str)
    (w : World) :
  let out := __call__ fuel instruction llm_name w in
  exists codes last,
    replies (new_events w (snd out)) = List.map Some codes ++ [last] /\
    Forall (fun r => is_code (Some r) = true) codes /\
    runs (new_events w (snd out))
    = List.map (fun r => msg_code (parse_reply r)) codes /\
    ((fst out = Ok tt /\ is_code last = false) \/
     (fst out = OutOfFuel /\ List.length codes = fuel /\ truthy last = true)).
Proof.
  intros out; subst out. rewrite call_eq.
  destruct (started_trace instruction llm_name w) as (p & Hs).
  destruct (while_response_shape fuel (fst (started instruction llm_name w))
              (snd (started instruction llm_name w)))
    as (res & w' & d & codes & last & Hw & Ht & Hr & Hc & Hruns & Hres).
  rewrite Hw. exists codes, last.
  rewrite Hs in Ht.
  destruct Hres as [(-> & Hlast)|(-> & Hlen & Hlast)]; simpl.
  - erewrite new_events_app
      by (simpl; rewrite Ht, <- !app_assoc; reflexivity).
    rewrite !replies_app, !runs_app. simpl. rewrite !app_nil_r.
    simpl in Hr. rewrite Hr, Hruns.
    split; [reflexivity|]. split; [exact Hc|]. split; [reflexivity|].
    left; split; [reflexivity | exact Hlast].
  - erewrite new_events_app by (rewrite Ht, <- !app_assoc; reflexivity).
    rewrite !replies_app, !runs_app. simpl.
    simpl in Hr. rewrite Hr, Hruns.
    split; [reflexivity|]. split; [exact Hc|]. split; [reflexivity|].
    right; repeat split; assumption.
Qed.

(** A run in which the first reply holds code and the second does not. *)
Lemma call_code_then_text (instruction : str) (llm_name : option str)
    (w w1 w2 : World) (r1 : str) (r2 : option str) (fuel : nat) :
  started instruction llm_name w = (Some r1, w1) ->
  is_code (Some r1) = true ->
  process_code_reply (parse_reply r1) (shown r1 w1) = (Ok r2, w2) ->
  is_code r2 = false ->
  2 <= fuel ->
  __call__ fuel instruction llm_name w
  = (Ok tt,
     finished match r2 with
              | Some ((_ :: _) as r) => shown r w2
              | _ => w2
              end).
Proof.
  intros Hs Hc1 Hp Hc2 Hfuel.
  rewrite call_eq, Hs. simpl.
  destruct fuel as [|[|fuel]]; [lia | lia |].
  destruct r1 as [|c s]; [discriminate|].
  rewrite while_response_turn.
  simpl in Hc1. rewrite Hc1.
  unfold bind. rewrite Hp.
  destruct r2 as [[|c2 s2]|]; try reflexivity.
  rewrite while_response_turn.
  simpl in Hc2. rewrite Hc2. reflexivity.
Qed.

(** A run in which the first reply holds no code. *)
Lemma call_text (instruction : str) (llm_name : option str)
    (w w1 : World) (r1 : option str) (fuel : nat) :
  started instruction llm_name w = (r1, w1) ->
  is_code r1 = false ->
  1 <= fuel ->
  __call__ fuel instruction llm_name w
  = (Ok tt,
     finished match r1 with
              | Some ((_ :: _) as r) => shown r w1
              | _ => w1
              end).
Proof.
  intros Hs Hc1 Hfuel.
  rewrite call_eq, Hs. simpl.
  destruct fuel as [|fuel]; [lia|].
  destruct r1 as [[|c s]|]; try reflexivity.
  rewrite while_response_turn.
  simpl in Hc1. rewrite Hc1. reflexivity.
Qed.

End LoopProofs.

(** ** The system prompt *)

Lemma sp_ok_weaken (d : list Event) :
  forall c, sp_ok true d = true -> sp_ok c d = true.
Proof.
  induction d as [|ev d IH]; intros c H; [reflexivity|].
  simpl in *. apply andb_true_iff in H as [H1 H2].
  apply andb_true_iff; split.
  - destruct ev; try reflexivity.
    destruct system_prompt0; [discriminate | reflexivity].
  - destruct ev; simpl in *; auto.
Qed.

Lemma quiet_events_sp (d : list Event) :
  Forall (fun ev => quiet_event ev = true) d ->
  forall c, sp_ok c d = true /\ sp_flag c d = c.
Proof.
  induction 1 as [|ev d Hev _ IH]; intros c; [split; reflexivity|].
  destruct (IH c) as [H1 H2].
  destruct ev; try discriminate; simpl; auto.
Qed.

Section QuietProofs.

Context {C : Collab}.
Local Open Scope agent_scope.

Lemma quiet_ret {A} (a : A) : quiet (ret a).
Proof. intros w; split; [reflexivity|]. exists []. now rewrite app_nil_r. Qed.

Lemma quiet_raise {A} (e : Exn) : quiet (@raise _ A e).
Proof. intros w; split; [reflexivity|]. exists []. now rewrite app_nil_r. Qed.

Lemma quiet_get : quiet get.
Proof. intros w; split; [reflexivity|]. exists []. now rewrite app_nil_r. Qed.

Lemma quiet_emit (ev : Event) : quiet_event ev = true -> quiet (emit ev).
Proof.
  intros H w; split; [reflexivity|]. exists [ev]. split; [reflexivity|].
  now constructor.
Qed.

Lemma quiet_bind {A B} (m : M A) (k : A -> M B) :
  quiet m -> (forall a, quiet (k a)) -> quiet (bind m k).
Proof.
  intros Hm Hk w. unfold bind.
  destruct (Hm w) as (Hs & d & Ht & Hd).
  destruct (m w) as [[a|e|] w1]; simpl in *;
    try (split; [exact Hs | exists d; split; assumption]).
  destruct (Hk a w1) as (Hs' & d' & Ht' & Hd').
  split; [congruence|].
  exists (d ++ d'). split.
  - rewrite Ht', Ht, app_assoc; reflexivity.
  - apply Forall_app; split; assumption.
Qed.

Lemma quiet_try_except {A} (m : M A) (h : Exn -> M A) :
  quiet m -> (forall e, quiet (h e)) -> quiet (try_except m h).
Proof.
  intros Hm Hh w. unfold try_except.
  destruct (Hm w) as (Hs & d & Ht & Hd).
  destruct (m w) as [[a|e|] w1]; simpl in *;
    try (split; [exact Hs | exists d; split; assumption]).
  destruct (Hh e w1) as (Hs' & d' & Ht' & Hd').
  split; [congruence|].
  exists (d ++ d'). split.
  - rewrite Ht', Ht, app_assoc; reflexivity.
  - apply Forall_app; split; assumption.
Qed.

Lemma quiet_T_ (key : string) (args : list Z) : quiet (T_ key args).
Proof.
  unfold T_. apply quiet_bind; [apply quiet_get|]. intros; apply quiet_ret.
Qed.

Lemma quiet_write_cert (cert : str) : quiet (write_cert cert).
Proof. intros w; split; [reflexivity|]. exists []. simpl. now rewrite app_nil_r. Qed.

Lemma quiet_post (req : Request) : quiet (post req).
Proof.
  intros w. unfold post.
  destruct (requests_post (net (env w)) req) as [[e|response] n]; simpl;
    (split; [reflexivity|]); exists [EvPost req];
    (split; [reflexivity|]); now constructor.
Qed.

Lemma quiet_os_getlogin : quiet os_getlogin.
Proof.
  unfold os_getlogin. apply quiet_bind; [apply quiet_get|].
  intros w. destruct (os_login (env w)); [apply quiet_ret | apply quiet_raise].
Qed.

Lemma quiet_response_json (r : Response) : quiet (response_json r).
Proof.
  unfold response_json.
  destruct (json_body r); [apply quiet_ret | apply quiet_raise].
Qed.

Lemma quiet_subscript (v : json) (key : string) : quiet (subscript v key).
Proof.
  unfold subscript.
  destruct (getitem v key); [apply quiet_raise | apply quiet_ret].
Qed.

Lemma quiet_publish (title author : option str) : quiet (publish title author).
Proof.
  unfold publish. apply quiet_bind; [apply quiet_get|]. intros w.
  assert (Hdis : quiet (t <- T_ "publish_disabled" [] ;;
                        console_print [RStr (lit "[red]" ++ t)])).
  { apply quiet_bind; [apply quiet_T_|]. intros; now apply quiet_emit. }
  destruct (cfg_publish_url (settings (self w))) as [[|u0 url]|];
    destruct (cfg_publish_cert (settings (self w))) as [[|c0 cert]|];
    try exact Hdis.
  apply quiet_bind.
  { destruct author as [[|a0 a]|];
      first [apply quiet_ret | apply quiet_os_getlogin]. }
  intros who. apply quiet_bind.
  { destruct (negb (cert_staged (env w)));
      [apply quiet_write_cert | apply quiet_ret]. }
  intros _. apply quiet_bind.
  { apply quiet_try_except.
    - apply quiet_bind; [apply quiet_post|]. intros; apply quiet_ret.
    - intros e. apply quiet_bind; [apply quiet_raise|].
      intros; apply quiet_ret. }
  intros [response|]; [|apply quiet_ret].
  destruct (status_code response =? 201)%Z.
  - apply quiet_bind; [apply quiet_T_|]. intros t.
    apply quiet_bind; [apply quiet_response_json|]. intros v.
    apply quiet_bind; [apply quiet_subscript|]. intros u.
    now apply quiet_emit.
  - apply quiet_bind; [apply quiet_T_|]. intros t. now apply quiet_emit.
Qed.

Lemma quiet_step : quiet step.
Proof.
  unfold step. apply quiet_bind; [apply quiet_get|]. intros w.
  destruct (negb (truthy (llm_get_last_message (llm (self w)))));
    [|apply quiet_raise].
  apply quiet_bind; [apply quiet_T_|]. intros t. now apply quiet_emit.
Qed.

End QuietProofs.

Section SessionProofs.

Context {C : Collab}.

#[local] Arguments parse_reply : simpl never.

(** The feedback turns of the loop never carry a system prompt, and leave
    the recorded instruction alone. *)
Lemma while_response_discipline (fuel : nat) :
  forall (response : option str) (w : World),
  exists d,
    trace (env (snd (while_response fuel response w))) = trace (env w) ++ d /\
    Forall (fun sp => sp = None) (prompts d) /\
    sp_ok true d = true /\
    sp_flag true d = true /\
    instruction (self (snd (while_response fuel response w)))
    = instruction (self w) /\
    (records_history -> llm_history (llm (self w)) = true ->
     llm_history (llm (self (snd (while_response fuel response w)))) = true).
Proof.
  induction fuel as [|fuel IH]; intros response w.
  - exists []. rewrite app_nil_r.
    destruct response as [[|c s]|]; simpl; repeat split; auto.
  - destruct response as [[|c s]|];
      try (exists []; rewrite app_nil_r; simpl; repeat split; auto; fail).
    rewrite while_response_turn.
    destruct (MsgType_eqb (msg_type (parse_reply (c :: s))) CODE).
    + destruct (process_code_reply_cycle (parse_reply (c :: s))
                  (shown (c :: s) w))
        as (reply & w1 & p1 & p2 & p3 & content & Hp & Ht1 & Hl & Hi & _).
      unfold bind. rewrite Hp.
      destruct (IH reply w1) as (d & Ht & Hpr & Hok & Hfl & Hin & Hh).
      eexists. split.
      { rewrite Ht, Ht1. simpl. rewrite <- !app_assoc. simpl. reflexivity. }
      split; [simpl; constructor; [reflexivity | exact Hpr]|].
      split; [simpl; exact Hok|].
      split; [simpl; exact Hfl|].
      split; [rewrite Hin, Hi; reflexivity|].
      intros Hc _. apply Hh; [exact Hc|].
      replace (llm (self w1))
        with (snd (llm_send (llm (self (shown (c :: s) w))) content None None))
        by (rewrite <- Hl; reflexivity).
      apply Hc.
    + eexists. split; [simpl; reflexivity|].
      simpl. repeat split; auto.
Qed.

(** One run of [__call__]: the first model call carries [prompt_for w], the
    others carry nothing; the instruction is recorded exactly when that
    prompt is non-empty. *)
Lemma call_discipline (fuel : nat) (instruction0 : str)
    (llm_name : option str) (w : World) :
  exists d feedback,
    trace (env (snd (__call__ fuel instruction0 llm_name w)))
    = trace (env w) ++ d /\
    prompts d = prompt_for w :: feedback /\
    Forall (fun sp => sp = None) feedback /\
    (forall c, (c = true -> llm_history (llm (self w)) = true) ->
               sp_ok c d = true /\ sp_flag c d = true) /\
    instruction (self (snd (__call__ fuel instruction0 llm_name w)))
    = (if truthy (prompt_for w) then Some instruction0
       else instruction (self w)) /\
    (records_history ->
     llm_history (llm (self (snd (__call__ fuel instruction0 llm_name w))))
     = true).
Proof.
  rewrite call_eq. unfold started.
  destruct (llm_send (llm (self w)) instruction0 (prompt_for w) llm_name)
    as [reply l'] eqn:E.
  simpl.
  match goal with
  | |- context [while_response fuel reply ?x] => set (w1 := x)
  end.
  destruct (while_response_discipline fuel reply w1)
    as (d & Ht & Hpr & Hok & Hfl & Hin & Hh).
  assert (Hhist : records_history -> llm_history (llm (self w1)) = true).
  { intros Hc. subst w1. simpl.
    destruct (truthy (prompt_for w)); simpl;
      replace l' with (snd (llm_send (llm (self w)) instruction0
                              (prompt_for w) llm_name))
        by (rewrite E; reflexivity);
      apply Hc. }
  assert (Hinstr : instruction (self w1)
                   = if truthy (prompt_for w) then Some instruction0
                     else instruction (self w)).
  { subst w1. simpl. destruct (truthy (prompt_for w)); reflexivity. }
  assert (Hfirst : forall c rest,
             (c = true -> llm_history (llm (self w)) = true) ->
             sp_ok true rest = true -> sp_flag true rest = true ->
             sp_ok c (EvLLM instruction0 (prompt_for w) llm_name reply :: rest)
             = true /\
             sp_flag c (EvLLM instruction0 (prompt_for w) llm_name reply :: rest)
             = true).
  { intros c rest Hc Hr1 Hr2. simpl. rewrite Hr1. split; [|exact Hr2].
    unfold prompt_for. destruct c.
    - rewrite (Hc eq_refl). reflexivity.
    - destruct (if llm_history (llm (self w)) then None
                else system_prompt (self w)); reflexivity. }
  subst w1. simpl in Ht.
  destruct (while_response fuel reply _) as [[[]|e|] w2]; simpl in *.
  - eexists; exists (prompts d ++ []). split.
    { rewrite Ht, <- !app_assoc. simpl. reflexivity. }
    split; [simpl; rewrite prompts_app; reflexivity|].
    split; [rewrite app_nil_r; exact Hpr|].
    split.
    { intros c Hc. simpl.
      apply (Hfirst c (d ++ _) Hc).
      - rewrite sp_ok_app, Hok, Hfl. reflexivity.
      - rewrite sp_flag_app, Hfl. reflexivity. }
    split; [rewrite Hin; exact Hinstr|].
    intros Hc. apply Hh; auto.
  - eexists; exists (prompts d). split.
    { rewrite Ht, <- !app_assoc. simpl. reflexivity. }
    split; [reflexivity|]. split; [exact Hpr|].
    split; [intros c Hc; simpl; apply (Hfirst c d Hc); assumption|].
    split; [rewrite Hin; exact Hinstr|].
    intros Hc. apply Hh; auto.
  - eexists; exists (prompts d). split.
    { rewrite Ht, <- !app_assoc. simpl. reflexivity. }
    split; [reflexivity|]. split; [exact Hpr|].
    split; [intros c Hc; simpl; apply (Hfirst c d Hc); assumption|].
    split; [rewrite Hin; exact Hinstr|].
    intros Hc. apply Hh; auto.
Qed.

Lemma chat_discipline (prompt : str) (w : World) :
  exists d,
    trace (env (snd (chat prompt w))) = trace (env w) ++ d /\
    (forall c, (c = true -> llm_history (llm (self w)) = true) ->
               sp_ok c d = true /\ sp_flag c d = true) /\
    (records_history -> llm_history (llm (self (snd (chat prompt w)))) = true).
Proof.
  unfold chat, bind, get, llm_call. simpl. fold (prompt_for w).
  destruct (llm_send (llm (self w)) prompt (prompt_for w) None)
    as [reply l'] eqn:E.
  assert (Hl : records_history -> llm_history l' = true).
  { intros Hc.
    replace l' with (snd (llm_send (llm (self w)) prompt (prompt_for w) None))
      by (rewrite E; reflexivity).
    apply Hc. }
  assert (Hsp : forall c, (c = true -> llm_history (llm (self w)) = true) ->
                match prompt_for w with Some _ => negb c | None => true end
                = true).
  { intros c Hc. unfold prompt_for. destruct c.
    - rewrite (Hc eq_refl). reflexivity.
    - destruct (if llm_history (llm (self w)) then None
                else system_prompt (self w)); reflexivity. }
  destruct reply as [[|a [|b [|b' reply]]]|]; simpl;
    eexists; (split; [simpl; try rewrite <- app_assoc; reflexivity|]);
    (split; [intros c Hc; simpl; rewrite (Hsp c Hc); split; reflexivity
            | exact Hl]).
Qed.

(** Every method keeps the discipline: a system prompt is passed only when
    the model was not called since the session began or its history was
    last cleared. *)
Lemma run_op_discipline (fuel : nat) (o : Op) (w : World) (c : bool) :
  records_history ->
  (c = true -> llm_history (llm (self w)) = true) ->
  exists d,
    trace (env (snd (run_op fuel o w))) = trace (env w) ++ d /\
    sp_ok c d = true /\
    (sp_flag c d = true ->
     llm_history (llm (self (snd (run_op fuel o w)))) = true).
Proof.
  intros Hrec Hc.
  destruct o as [instr name|prompt| | |title author]; simpl.
  - destruct (call_discipline fuel instr name w)
      as (d & fb & Ht & _ & _ & Hsp & _ & Hh).
    exists d. destruct (Hsp c Hc) as [H1 H2]. auto.
  - destruct (chat_discipline prompt w) as (d & Ht & Hsp & Hh).
    exists d. destruct (Hsp c Hc) as [H1 H2]. auto.
  - destruct (quiet_step w) as (Hs & d & Ht & Hd).
    exists d. destruct (quiet_events_sp Hd c) as [H1 H2].
    rewrite Hs, H2. auto.
  - exists [EvLLMClear; EvRunnerClear].
    split; [unfold clear, bind, modify_self, emit; simpl;
            rewrite <- app_assoc; reflexivity|].
    split; [reflexivity|]. simpl. discriminate.
  - destruct (quiet_publish title author w) as (Hs & d & Ht & Hd).
    exists d. destruct (quiet_events_sp Hd c) as [H1 H2].
    rewrite Hs, H2. auto.
Qed.

Lemma session_discipline (fuel : nat) (ops : list Op) :
  records_history ->
  forall (w : World) (c : bool),
    (c = true -> llm_history (llm (self w)) = true) ->
    exists d,
      trace (env (session fuel ops w)) = trace (env w) ++ d /\
      sp_ok c d = true.
Proof.
  intros Hrec. induction ops as [|o ops IH]; intros w c Hc; simpl.
  - exists []. now rewrite app_nil_r.
  - destruct (@run_op_discipline fuel o w c Hrec Hc) as (d & Ht & Hok & Hh).
    destruct (IH (snd (run_op fuel o w)) (sp_flag c d) Hh)
      as (d' & Ht' & Hok').
    exists (d ++ d'). split.
    + rewrite Ht', Ht, app_assoc. reflexivity.
    + rewrite sp_ok_app, Hok, Hok'. reflexivity.
Qed.

(** C2: under the model collaborator's contract (its history is non-empty
    once it was sent something), in every session (any sequence of
    [__call__], [chat], [step], [clear] and [publish]) a model call carries a
    system prompt only when no model call was made since the session began
    with an empty history or since the history was last cleared.  In every
    run of [__call__] the first model call carries the system prompt exactly
    when the history is empty, no feedback call carries one, and the
    instruction is recorded as the active instruction when the prompt passed
    is non-empty (and left as it was otherwise). *)
Theorem system_prompt_attached_once :
  records_history ->
  (forall (fuel : nat) (ops : list Op) (w : World),
      sp_ok (llm_history (llm (self w)))
            (new_events w (session fuel ops w)) = true) /\
  (forall (fuel : nat) (instruction0 : str) (llm_name : option str)
          (w : World),
      let out := __call__ fuel instruction0 llm_name w in
      let first :=
        if llm_history (llm (self w)) then None else system_prompt (self w) in
      exists feedback,
        prompts (new_events w (snd out)) = first :: feedback /\
        Forall (fun sp => sp = None) feedback /\
        (truthy first = true ->
         instruction (self (snd out)) = Some instruction0) /\
        (truthy first = false ->
         instruction (self (snd out)) = instruction (self w))).
Proof.
  intros Hrec. split.
  - intros fuel ops w.
    destruct (@session_discipline fuel ops Hrec w
                (llm_history (llm (self w))) (fun H => H))
      as (d & Ht & Hok).
    erewrite new_events_app by exact Ht. exact Hok.
  - intros fuel instruction0 llm_name w out first.
    destruct (call_discipline fuel instruction0 llm_name w)
      as (d & fb & Ht & Hp & Hfb & _ & Hin & _).
    exists fb. subst out.
    erewrite new_events_app by exact Ht.
    split; [exact Hp|]. split; [exact Hfb|].
    fold (prompt_for w) in first. subst first.
    rewrite Hin.
    split; intros ->; reflexivity.
Qed.

End SessionProofs.

(** ** The scenarios of the instruction loop, on the scripted model *)

#[local] Arguments parse_reply : simpl never.

Lemma mock_started (w : @World Mock.collab) (r1 : option str)
    (rest : list (option str)) (instruction0 : str) (llm_name : option str) :
  Mock.script (llm (self w)) = r1 :: rest ->
  fst (started instruction0 llm_name w) = r1 /\
  Mock.script (llm (self (snd (started instruction0 llm_name w)))) = rest.
Proof.
  intros Hs. unfold started. simpl. unfold Mock.send. rewrite Hs.
  split; reflexivity.
Qed.

Lemma mock_scenario_code_then_text (w : @World Mock.collab) (r1 : str)
    (r2 : option str) (rest : list (option str)) (instruction0 : str)
    (llm_name : option str) (fuel : nat) :
  Mock.script (llm (self w)) = Some r1 :: r2 :: rest ->
  is_code (Some r1) = true -> is_code r2 = false -> 2 <= fuel ->
  let out := __call__ fuel instruction0 llm_name w in
  fst out = Ok tt /\
  replies (new_events w (snd out)) = [Some r1; r2] /\
  runs (new_events w (snd out)) = [msg_code (parse_reply r1)].
Proof.
  intros Hs Hc1 Hc2 Hfuel out; subst out.
  destruct (mock_started w instruction0 llm_name Hs) as [Hr Hrest].
  destruct (started_trace instruction0 llm_name w) as (p & Ht0).
  destruct (started instruction0 llm_name w) as [r w1] eqn:Hst.
  simpl in Hr, Hrest, Ht0. subst r.
  destruct (process_code_reply_cycle (parse_reply r1) (shown r1 w1))
    as (reply & w2 & p1 & p2 & p3 & content & Hp & Ht1 & Hl & _).
  assert (reply = r2).
  { simpl in Hl. unfold Mock.send in Hl. rewrite Hrest in Hl.
    now injection Hl as -> _. }
  subst reply.
  rewrite (call_code_then_text _ _ _ Hst Hc1 Hp Hc2 Hfuel).
  split; [reflexivity|].
  assert (Ht : exists d,
             trace (env (finished match r2 with
                                  | Some ((_ :: _) as r) => shown r w2
                                  | _ => w2
                                  end))
             = trace (env w) ++ d /\
             replies d = [Some r1; r2] /\
             runs d = [msg_code (parse_reply r1)]).
  { simpl in Ht1. rewrite Ht0 in Ht1.
    destruct r2 as [[|c s]|]; simpl; rewrite Ht1;
      eexists; (split; [rewrite <- !app_assoc; simpl; reflexivity|]);
      split; reflexivity. }
  destruct Ht as (d & Ht & Hrep & Hrun).
  simpl. erewrite new_events_app by exact Ht. split; assumption.
Qed.

Lemma mock_scenario_text (w : @World Mock.collab) (r1 : option str)
    (rest : list (option str)) (instruction0 : str)
    (llm_name : option str) (fuel : nat) :
  Mock.script (llm (self w)) = r1 :: rest ->
  is_code r1 = false -> 1 <= fuel ->
  let out := __call__ fuel instruction0 llm_name w in
  fst out = Ok tt /\
  replies (new_events w (snd out)) = [r1] /\
  runs (new_events w (snd out)) = [].
Proof.
  intros Hs Hc1 Hfuel out; subst out.
  destruct (mock_started w instruction0 llm_name Hs) as [Hr Hrest].
  destruct (started_trace instruction0 llm_name w) as (p & Ht0).
  destruct (started instruction0 llm_name w) as [r w1] eqn:Hst.
  simpl in Hr, Hrest, Ht0. subst r.
  rewrite (call_text _ _ _ Hst Hc1 Hfuel).
  split; [reflexivity|].
  assert (Ht : exists d,
             trace (env (finished match r1 with
                                  | Some ((_ :: _) as r) => shown r w1
                                  | _ => w1
                                  end))
             = trace (env w) ++ d /\
             replies d = [r1] /\ runs d = []).
  { destruct r1 as [[|c s]|]; simpl; rewrite Ht0;
      eexists; (split; [rewrite <- !app_assoc; simpl; reflexivity|]);
      split; reflexivity. }
  destruct Ht as (d & Ht & Hrep & Hrun).
  simpl. erewrite new_events_app by exact Ht. split; assumption.
Qed.

(** The scripted session is the one the constructor builds. *)
Lemma mock_start_world (replies : list (option str)) :
  Mock.start (Mock.config replies None None) [] = Some (Mock.world replies).
Proof. reflexivity. Qed.

(** An opener that is never closed still yields its lines as code. *)
Lemma parse_reply_unclosed_fence :
  parse_reply (lit "```run" ++ NL :: lit "print(1)")
  = mkMsg CODE (Some (lit "print(1)")).
Proof. reflexivity. Qed.

Lemma mock_records_history : @records_history Mock.collab.
Proof.
  intros l content sp name. simpl. unfold Mock.send.
  destruct (Mock.script l); simpl; destruct (Mock.history l); reflexivity.
Qed.

(** C1: in every run of the instruction loop the replies of the model are
    CODE replies followed by one last reply; the execution collaborator is
    invoked once for each of the CODE replies, in order, with that reply's
    payload, and for nothing else; the loop returns at the last reply, which
    is [TEXT] or empty, and a bound of [fuel] turns is hit only after [fuel]
    CODE replies.  With a scripted model that replies CODE and then something
    that is not CODE, the loop returns after exactly one execution; with one
    whose first reply is not CODE, it returns after none. *)
Theorem instruction_loop_cycles :
  (forall (C : Collab) (fuel : nat) (instruction0 : str)
          (llm_name : option str) (w : World),
      let out := __call__ fuel instruction0 llm_name w in
      exists codes last,
        replies (new_events w (snd out)) = List.map Some codes ++ [last] /\
        Forall (fun r => is_code (Some r) = true) codes /\
        runs (new_events w (snd out))
        = List.map (fun r => msg_code (parse_reply r)) codes /\
        ((fst out = Ok tt /\ is_code last = false) \/
         (fst out = OutOfFuel /\ List.length codes = fuel /\
          truthy last = true))) /\
  (forall (w : @World Mock.collab) (r1 : str) (r2 : option str)
          (rest : list (option str)) (instruction0 : str)
          (llm_name : option str) (fuel : nat),
      Mock.script (llm (self w)) = Some r1 :: r2 :: rest ->
      is_code (Some r1) = true -> is_code r2 = false -> 2 <= fuel ->
      let out := __call__ fuel instruction0 llm_name w in
      fst out = Ok tt /\
      replies (new_events w (snd out)) = [Some r1; r2] /\
      runs (new_events w (snd out)) = [msg_code (parse_reply r1)]) /\
  (forall (w : @World Mock.collab) (r1 : option str)
          (rest : list (option str)) (instruction0 : str)
          (llm_name : option str) (fuel : nat),
      Mock.script (llm (self w)) = r1 :: rest ->
      is_code r1 = false -> 1 <= fuel ->
      let out := __call__ fuel instruction0 llm_name w in
      fst out = Ok tt /\
      replies (new_events w (snd out)) = [r1] /\
      runs (new_events w (snd out)) = []).
Proof.
  split; [|split].
  - intros C fuel instruction0 llm_name w. apply call_shape.
  - intros. now apply mock_scenario_code_then_text with (rest := rest).
  - intros. now apply mock_scenario_text with (rest := rest).
Qed.

Lemma instruction_loop_cycles_witness :
  (fst (__call__ 2 (lit "print one") None
          (Mock.world [Some Sample.code_reply; Some (lit "Done.")]))
   = Ok tt /\
   runs (new_events
           (Mock.world [Some Sample.code_reply; Some (lit "Done.")])
           (snd (__call__ 2 (lit "print one") None
                   (Mock.world [Some Sample.code_reply; Some (lit "Done.")]))))
   = [Some (lit "print(1)")]) /\
  runs (new_events
          (Mock.world [Some (lit "Done.")])
          (snd (__call__ 1 (lit "hello") None
                  (Mock.world [Some (lit "Done.")]))))
  = [].
Proof.
  destruct instruction_loop_cycles as (_ & H2 & H3).
  split.
  - destruct (H2 (Mock.world [Some Sample.code_reply; Some (lit "Done.")])
                 Sample.code_reply (Some (lit "Done.")) []
                 (lit "print one") None 2)
      as (Hr & _ & Hruns).
    + reflexivity.
    + reflexivity.
    + reflexivity.
    + lia.
    + split; [exact Hr | exact Hruns].
  - destruct (H3 (Mock.world [Some (lit "Done.")]) (Some (lit "Done.")) []
                 (lit "hello") None 1)
      as (_ & _ & Hruns).
    + reflexivity.
    + reflexivity.
    + lia.
    + exact Hruns.
Defined.

Lemma system_prompt_attached_once_witness :
  sp_ok false
    (new_events
       (Mock.world [Some Sample.code_reply; Some (lit "Done.")])
       (session 3 [OpCall (lit "print one") None; OpChat (lit "and now?");
                   OpClear; OpCall (lit "again") None]
          (Mock.world [Some Sample.code_reply; Some (lit "Done.")])))
  = true /\
  exists feedback,
    prompts (new_events
               (Mock.world [Some Sample.code_reply; Some (lit "Done.")])
               (snd (__call__ 3 (lit "print one") None
                       (Mock.world [Some Sample.code_reply;
                                    Some (lit "Done.")]))))
    = Some (lit "You are a helper") :: feedback /\
    Forall (fun sp => sp = None) feedback.
Proof.
  destruct (@system_prompt_attached_once Mock.collab mock_records_history)
    as (H1 & H2).
  split.
  - exact (H1 3 [OpCall (lit "print one") None; OpChat (lit "and now?");
                 OpClear; OpCall (lit "again") None]
              (Mock.world [Some Sample.code_reply; Some (lit "Done.")])).
  - destruct (H2 3 (lit "print one") None
                 (Mock.world [Some Sample.code_reply; Some (lit "Done.")]))
      as (fb & Hp & Hfb & _).
    exists fb. split; [exact Hp | exact Hfb].
Defined.

Lemma publish_disabled_without_url_or_cert_witness :
  fst (publish None None (Mock.world [])) = Ok tt /\
  posts (new_events (Mock.world []) (snd (publish None None (Mock.world []))))
  = [].
Proof.
  destruct (@publish_disabled_without_url_or_cert Mock.collab
              (Mock.world []) None None) as (H1 & _ & H3).
  - left; reflexivity.
  - split; [exact H1 | exact H3].
Defined.

Lemma publish_reports_upload_outcome_witness :
  (fst (publish (Some (lit "Report")) None
          (Mock.publishing [inr Mock.created]))
   = Ok tt /\
   new_events (Mock.publishing [inr Mock.created])
     (snd (publish (Some (lit "Report")) None
             (Mock.publishing [inr Mock.created])))
   = [EvPost (publish_request (lit "https://pub.example/api")
                (Some (lit "Report")) (lit "operator")
                (Mock.publishing [inr Mock.created]));
      EvPrint [RStr (lit "[green]upload_success:");
               RJson (JStr (lit "https://pub.example/7"))]]) /\
  (fst (publish None None (Mock.publishing [inl Scene.timeout]))
   = Raise TypeError /\
   new_events (Mock.publishing [inl Scene.timeout])
     (snd (publish None None (Mock.publishing [inl Scene.timeout])))
   = [EvPost (publish_request (lit "https://pub.example/api") None
                (lit "operator") (Mock.publishing [inl Scene.timeout]))]).
Proof.
  split.
  - exact (@publish_reports_upload_outcome Mock.collab
             (Mock.publishing [inr Mock.created]) (Some (lit "Report")) None
             (lit "https://pub.example/api")
             (lit "-----BEGIN CERTIFICATE-----") (lit "operator")
             eq_refl eq_refl eq_refl eq_refl eq_refl
             _ (JStr (lit "https://pub.example/7")) eq_refl eq_refl).
  - exact (@publish_reports_upload_outcome Mock.collab
             (Mock.publishing [inl Scene.timeout]) None None
             (lit "https://pub.example/api")
             (lit "-----BEGIN CERTIFICATE-----") (lit "operator")
             eq_refl eq_refl eq_refl eq_refl eq_refl).
Defined.

Lemma publish_success_body_errors_escape_witness :
  fst (publish None None (Mock.publishing [inr Mock.created_without_url]))
  = Raise (KeyError "url").
Proof.
  destruct (@publish_success_body_errors_escape Mock.collab
              (Mock.publishing [inr Mock.created_without_url]) None None
              (lit "https://pub.example/api")
              (lit "-----BEGIN CERTIFICATE-----") (lit "operator")
              Mock.created_without_url []
              eq_refl eq_refl eq_refl eq_refl eq_refl eq_refl eq_refl)
    as (_ & H).
  exact (proj1 (H [(lit "id", JNum 7)] eq_refl eq_refl)).
Defined.

(** * Further properties *)

(** ** The scan of [parse_reply] *)

Lemma plain_closer_false (l : str) :
  plain_closer l = false -> is_run_opener l = true \/ is_fence l = false.
Proof.
  unfold plain_closer. destruct (is_fence l), (is_run_opener l); auto.
Qed.

Lemma scan_lines_body (body rest acc : list str) :
  Forall (fun l => plain_closer l = false) body ->
  scan_lines (body ++ rest) true acc = scan_lines rest true (acc ++ kept body).
Proof.
  intros H; revert acc; induction H as [|l body Hl _ IH]; intros acc.
  - simpl. now rewrite app_nil_r.
  - simpl. unfold kept in *. simpl.
    destruct (plain_closer_false _ Hl) as [Ho|Hf].
    + rewrite Ho. simpl. apply IH.
    + rewrite (not_fence_not_opener _ Hf), Hf. simpl.
      rewrite IH, <- app_assoc. reflexivity.
Qed.

(** After the first opener, the lines up to the first plain closing fence
    line (or to the end of the reply when there is none) are the code, the
    lines that are openers themselves left out; a second opener before the
    closing line does not start a new block. *)
Theorem parse_reply_collects :
  forall (text : str) (pre : list str) (opener : str) (body tail : list str),
    split_nl text = pre ++ opener :: body ++ tail ->
    Forall (fun l => is_run_opener l = false) pre ->
    is_run_opener opener = true ->
    Forall (fun l => plain_closer l = false) body ->
    (tail = [] \/ exists c rest, tail = c :: rest /\ plain_closer c = true) ->
    parse_reply text
    = match kept body with
      | [] => mkMsg TEXT None
      | _ :: _ => mkMsg CODE (Some (join_nl (kept body)))
      end.
Proof.
  intros text pre opener body tail Hl Hpre Hop Hbody Htail.
  unfold parse_reply. rewrite Hl.
  rewrite scan_lines_outside by exact Hpre.
  simpl. rewrite Hop.
  rewrite scan_lines_body by exact Hbody. simpl.
  destruct Htail as [->|(c & rest & -> & Hc)].
  - simpl. destruct (kept body); reflexivity.
  - rewrite scan_lines_closer by exact Hc. destruct (kept body); reflexivity.
Qed.

Lemma parse_reply_collects_witness :
  parse_reply (lit "```run" ++ NL :: lit "a = 1" ++ NL :: lit "```run" ++ NL
               :: lit "b = 2" ++ NL :: lit "```python" ++ NL :: lit "c = 3")
  = mkMsg CODE (Some (lit "a = 1" ++ NL :: lit "b = 2")) /\
  parse_reply (lit "see" ++ NL :: lit "```run" ++ NL :: lit "a = 1")
  = mkMsg CODE (Some (lit "a = 1")).
Proof.
  split.
  - apply (@parse_reply_collects _ [] (lit "```run")
             [lit "a = 1"; lit "```run"; lit "b = 2"]
             [lit "```python"; lit "c = 3"]).
    + reflexivity.
    + constructor.
    + reflexivity.
    + repeat constructor.
    + right. exists (lit "```python"), [lit "c = 3"]. split; reflexivity.
  - apply (@parse_reply_collects _ [lit "see"] (lit "```run") [lit "a = 1"] []).
    + reflexivity.
    + repeat constructor.
    + reflexivity.
    + repeat constructor.
    + left; reflexivity.
Defined.

Lemma subseq_refl {A : Type} (l : list A) : subseq l l.
Proof. induction l; constructor; assumption. Qed.

Lemma subseq_nil_l {A : Type} (l : list A) : subseq [] l.
Proof. induction l; constructor; assumption. Qed.

Lemma subseq_Forall {A : Type} (P : A -> Prop) (a b : list A) :
  subseq a b -> Forall P b -> Forall P a.
Proof.
  induction 1; intros Hb; auto; inversion Hb; subst; auto.
Qed.

Lemma scan_lines_subseq (lines : list str) :
  forall (b : bool) (acc : list str),
  exists ls,
    scan_lines lines b acc = acc ++ ls /\
    subseq ls lines /\
    Forall (fun l => is_fence l = false) ls.
Proof.
  induction lines as [|l lines IH]; intros b acc; simpl.
  - exists []. rewrite app_nil_r. repeat split; constructor.
  - destruct (is_run_opener l) eqn:Ho.
    + destruct (IH true acc) as (ls & E & Hs & Hf).
      exists ls. repeat split; auto. now constructor.
    + destruct (is_fence l) eqn:Hfl; destruct b; simpl.
      * exists []. rewrite app_nil_r. repeat split; auto.
        apply subseq_nil_l.
      * destruct (IH false acc) as (ls & E & Hs & Hf).
        exists ls. repeat split; auto. now constructor.
      * destruct (IH true (acc ++ [l])) as (ls & E & Hs & Hf).
        exists (l :: ls). rewrite E, <- app_assoc. repeat split; auto.
        now constructor.
      * destruct (IH false acc) as (ls & E & Hs & Hf).
        exists ls. repeat split; auto. now constructor.
Qed.

(** The code that [parse_reply] returns is made of lines of the reply, as
    they are and in their order, none of them a fence line; splitting the
    code at its line breaks gives those lines back. *)
Theorem parse_reply_code_lines :
  forall (text code : str),
    msg_code (parse_reply text) = Some code ->
    exists ls,
      ls <> [] /\
      code = join_nl ls /\
      split_nl code = ls /\
      subseq ls (split_nl text) /\
      Forall (fun l => is_fence l = false) ls.
Proof.
  intros text code. unfold parse_reply.
  destruct (scan_lines_subseq (split_nl text) false []) as (ls & E & Hs & Hf).
  rewrite E. cbn [app].
  destruct ls as [|l ls]; cbn [msg_code]; [discriminate|].
  intros H; injection H as <-.
  exists (l :: ls). split; [discriminate|]. split; [reflexivity|].
  split; [|split; assumption].
  change (split_nl (join_nl (l :: ls)) = l :: ls).
  apply split_join_nl; [discriminate|].
  apply (subseq_Forall Hs), split_nl_no_break.
Qed.

Lemma parse_reply_code_lines_witness :
  exists ls,
    ls <> [] /\
    lit "print(1)" ++ NL :: lit "print(2)" = join_nl ls /\
    split_nl (lit "print(1)" ++ NL :: lit "print(2)") = ls /\
    subseq ls (split_nl Sample.one_fence) /\
    Forall (fun l => is_fence l = false) ls.
Proof.
  apply (@parse_reply_code_lines Sample.one_fence). reflexivity.
Defined.

(** ** Which lines are fence lines *)

Lemma lstrip_split (s : str) :
  exists ws, s = ws ++ lstrip s /\ Forall (fun c => isspace c = true) ws.
Proof.
  induction s as [|c s (ws & E & H)]; simpl.
  - exists []. split; [reflexivity | constructor].
  - destruct (isspace c) eqn:Ec.
    + exists (c :: ws). split; [simpl; now rewrite <- E | now constructor].
    + exists []. split; [reflexivity | constructor].
Qed.

Lemma lstrip_spaces (ws s : str) :
  Forall (fun c => isspace c = true) ws -> lstrip (ws ++ s) = lstrip s.
Proof.
  induction 1 as [|c ws Hc _ IH]; simpl; [reflexivity|].
  now rewrite Hc.
Qed.

Lemma lstrip_keeps (x y : str) (c : char) :
  isspace c = false -> lstrip (x ++ c :: y) = lstrip x ++ c :: y.
Proof.
  intros Hc. induction x as [|d x IH]; simpl.
  - now rewrite Hc.
  - destruct (isspace d); [exact IH | reflexivity].
Qed.

Lemma rstrip_prefix (s : str) : exists t, s = rstrip s ++ t.
Proof.
  unfold rstrip.
  destruct (lstrip_split (rev s)) as (ws & E & _).
  exists (rev ws).
  rewrite <- rev_app_distr, <- E, rev_involutive. reflexivity.
Qed.

Lemma rstrip_keeps (x y : str) (c : char) :
  isspace c = false -> rstrip (x ++ c :: y) = x ++ c :: rstrip y.
Proof.
  intros Hc. unfold rstrip.
  rewrite rev_app_distr. simpl. rewrite <- app_assoc. simpl.
  rewrite lstrip_keeps by exact Hc.
  rewrite rev_app_distr. simpl. rewrite rev_involutive, <- app_assoc.
  reflexivity.
Qed.

Lemma startswith_prefix (p s : str) : startswith (p ++ s) p = true.
Proof.
  induction p as [|c p IH]; simpl; [reflexivity|].
  unfold char_eqb. now rewrite N.eqb_refl.
Qed.

Lemma startswith_split (s p : str) :
  startswith s p = true -> exists rest, s = p ++ rest.
Proof.
  revert s; induction p as [|c p IH]; intros s H; simpl in *.
  - now exists s.
  - destruct s as [|d s]; [discriminate|].
    apply andb_true_iff in H as [Hd Hs].
    apply N.eqb_eq in Hd; subst d.
    destruct (IH _ Hs) as (rest & ->). now exists rest.
Qed.

(** A marker that begins and ends with a character that is no whitespace
    starts the stripped line exactly when it starts the line after its
    leading whitespace. *)
Lemma strip_startswith_iff (line q : str) (a z : char) :
  isspace a = false -> isspace z = false ->
  startswith (strip line) (a :: q ++ [z]) = true <->
  exists ws rest,
    line = ws ++ (a :: q ++ [z]) ++ rest /\
    Forall (fun c => isspace c = true) ws.
Proof.
  intros Ha Hz. split.
  - intros H. unfold strip in H.
    destruct (lstrip_split line) as (ws & E & Hws).
    destruct (rstrip_prefix (lstrip line)) as (t & Et).
    destruct (startswith_split _ _ H) as (rest & Er).
    exists ws, (rest ++ t). split; [|exact Hws].
    rewrite E at 1. rewrite Et at 1. rewrite Er. now rewrite <- app_assoc.
  - intros (ws & rest & -> & Hws). unfold strip.
    rewrite lstrip_spaces by exact Hws.
    assert (E1 : lstrip ((a :: q ++ [z]) ++ rest) = (a :: q ++ [z]) ++ rest)
      by (simpl; now rewrite Ha).
    assert (E2 : (a :: q ++ [z]) ++ rest = (a :: q) ++ z :: rest)
      by (simpl; now rewrite <- app_assoc).
    assert (E3 : (a :: q) ++ z :: rstrip rest = (a :: q ++ [z]) ++ rstrip rest)
      by (simpl; now rewrite <- app_assoc).
    rewrite E1, E2, rstrip_keeps, E3 by exact Hz.
    apply startswith_prefix.
Qed.

(** A line opens a runnable fence exactly when, after leading whitespace, it
    begins with the six characters of the runnable marker, whatever follows
    them on the line; a line is a fence line exactly when, after leading
    whitespace, it begins with three backquotes. *)
Theorem fence_line_shapes :
  forall (line : str),
    (is_run_opener line = true <->
     exists ws rest,
       line = ws ++ lit "```run" ++ rest /\
       Forall (fun c => isspace c = true) ws) /\
    (is_fence line = true <->
     exists ws rest,
       line = ws ++ lit "```" ++ rest /\
       Forall (fun c => isspace c = true) ws).
Proof.
  intros line. split.
  - apply (@strip_startswith_iff line (lit "``ru") 96%N 110%N); reflexivity.
  - apply (@strip_startswith_iff line (lit "`") 96%N 96%N); reflexivity.
Qed.

Lemma fence_line_shapes_witness :
  is_run_opener (lit "    ```runner --fast") = true.
Proof.
  apply (proj1 (fence_line_shapes _)).
  exists (lit "    "), (lit "ner --fast"). split; [reflexivity|].
  repeat constructor.
Defined.

(** ** More on the instruction loop *)

Lemma names_app (a b : list Event) : names (a ++ b) = names a ++ names b.
Proof. apply flat_map_app. Qed.

Lemma writes_app (a b : list Event) : writes (a ++ b) = writes a ++ writes b.
Proof. apply flat_map_app. Qed.

Lemma sent_app (a b : list Event) : sent (a ++ b) = sent a ++ sent b.
Proof. apply flat_map_app. Qed.

Section LoopFrame.

Context {C : Collab}.

#[local] Arguments parse_reply : simpl never.

(** What the loop leaves alone, and how its model calls are made. *)
Lemma while_response_frame (fuel : nat) :
  forall (response : option str) (w : World),
  exists d,
    trace (env (snd (while_response fuel response w))) = trace (env w) ++ d /\
    names d = repeat None (List.length (runs d)) /\
    writes d = [] /\
    system_prompt (self (snd (while_response fuel response w)))
    = system_prompt (self w).
Proof.
  induction fuel as [|fuel IH]; intros response w.
  - exists []. rewrite app_nil_r.
    destruct response as [[|c s]|]; simpl; repeat split; auto.
  - destruct response as [[|c s]|];
      try (exists []; rewrite app_nil_r; simpl; repeat split; auto; fail).
    rewrite while_response_turn.
    destruct (MsgType_eqb (msg_type (parse_reply (c :: s))) CODE).
    + destruct (process_code_reply_cycle (parse_reply (c :: s))
                  (shown (c :: s) w))
        as (reply & w1 & p1 & p2 & p3 & content & Hp & Ht1 & _ & _ & Hsp).
      unfold bind. rewrite Hp.
      destruct (IH reply w1) as (d & Ht & Hn & Hw & Hs).
      eexists. split.
      { rewrite Ht, Ht1. simpl. rewrite <- !app_assoc. simpl. reflexivity. }
      split; [simpl; rewrite Hn; reflexivity|].
      split; [simpl; exact Hw|].
      rewrite Hs, Hsp. reflexivity.
    + eexists. split; [simpl; reflexivity|].
      simpl. repeat split; auto.
Qed.

(** The model name given to [__call__] goes with the first model call only:
    the first call is sent the instruction under that name, and each
    execution is followed by one feedback call made without a name, so that
    a run makes one model call more than it makes executions. *)
Theorem call_names_first_call_only :
  forall (fuel : nat) (instruction0 : str) (llm_name : option str)
         (w : World),
    let d := new_events w (snd (__call__ fuel instruction0 llm_name w)) in
    names d = llm_name :: repeat None (List.length (runs d)) /\
    List.hd_error (sent d) = Some instruction0 /\
    List.length (replies d) = S (List.length (runs d)).
Proof.
  intros fuel instruction0 llm_name w d. subst d.
  rewrite call_eq.
  destruct (started_trace instruction0 llm_name w) as (p & Hs).
  destruct (while_response_frame fuel (fst (started instruction0 llm_name w))
              (snd (started instruction0 llm_name w)))
    as (d & Ht & Hn & Hw & _).
  rewrite Hs in Ht.
  assert (Hlen : List.length (replies d) = List.length (names d)).
  { clear. induction d as [|ev d IH]; [reflexivity|].
    destruct ev; simpl; auto. }
  rewrite Hn, repeat_length in Hlen.
  destruct (while_response fuel _ _) as [[[]|e|] w2]; simpl in *.
  - erewrite new_events_app
      by (simpl; rewrite Ht, <- !app_assoc; reflexivity).
    simpl. rewrite names_app, runs_app, replies_app, length_app. simpl.
    rewrite !app_nil_r, Nat.add_0_r, Hn, Hlen. repeat split.
  - erewrite new_events_app by (rewrite Ht, <- !app_assoc; reflexivity).
    simpl. rewrite Hn, Hlen. repeat split.
  - erewrite new_events_app by (rewrite Ht, <- !app_assoc; reflexivity).
    simpl. rewrite Hn, Hlen. repeat split.
Qed.

(** A run of [__call__] that returns ends with the end-of-instruction
    message followed by three BEL bytes written to file descriptor 1;
    nothing else is written, and nothing at all in a run that does not
    return. *)
Theorem call_completion_signal :
  forall (fuel : nat) (instruction0 : str) (llm_name : option str)
         (w : World),
    let out := __call__ fuel instruction0 llm_name w in
    let d := new_events w (snd out) in
    match fst out with
    | Ok _ =>
        exists d',
          d = d'
              ++ [EvPrint [RStr (NL :: 9209%N :: lit " "
                                 ++ T (i18n_lang (env (snd out)))
                                      "end_instruction" [])];
                  EvWrite 1 [7; 7; 7]%N] /\
          writes d' = []
    | _ => writes d = []
    end.
Proof.
  intros fuel instruction0 llm_name w out d. subst d out.
  rewrite call_eq.
  destruct (started_trace instruction0 llm_name w) as (p & Hs).
  destruct (while_response_frame fuel (fst (started instruction0 llm_name w))
              (snd (started instruction0 llm_name w)))
    as (d & Ht & _ & Hw & _).
  rewrite Hs in Ht.
  destruct (while_response fuel _ _) as [[[]|e|] w2]; simpl in *.
  - exists (EvPrint p
            :: EvLLM instruction0 (prompt_for w) llm_name
                     (fst (started instruction0 llm_name w)) :: d).
    split.
    + apply new_events_app. simpl. rewrite Ht, <- !app_assoc. reflexivity.
    + simpl. exact Hw.
  - erewrite new_events_app by (rewrite Ht, <- !app_assoc; reflexivity).
    simpl. exact Hw.
  - erewrite new_events_app by (rewrite Ht, <- !app_assoc; reflexivity).
    simpl. exact Hw.
Qed.

End LoopFrame.

(** ** The active instruction across a session *)

Section InstructionProofs.

Context {C : Collab}.

Lemma call_keeps_system_prompt (fuel : nat) (instruction0 : str)
    (llm_name : option str) (w : World) :
  system_prompt (self (snd (__call__ fuel instruction0 llm_name w)))
  = system_prompt (self w).
Proof.
  rewrite call_eq.
  destruct (while_response_frame fuel (fst (started instruction0 llm_name w))
              (snd (started instruction0 llm_name w)))
    as (d & _ & _ & _ & Hs).
  assert (H0 : system_prompt (self (snd (started instruction0 llm_name w)))
               = system_prompt (self w)).
  { unfold started.
    destruct (llm_send (llm (self w)) instruction0 (prompt_for w) llm_name).
    simpl. destruct (truthy (prompt_for w)); reflexivity. }
  destruct (while_response fuel _ _) as [[[]|e|] w2]; simpl in *; congruence.
Qed.

Lemma chat_frame :
  forall (prompt : str) (w : World),
    let w' := snd (chat prompt w) in
    sent (new_events w w') = [prompt] /\
    prompts (new_events w w') = [prompt_for w] /\
    names (new_events w w') = [None] /\
    runs (new_events w w') = [] /\
    instruction (self w') = instruction (self w) /\
    system_prompt (self w') = system_prompt (self w).
Proof.
  intros prompt w w'. subst w'.
  unfold chat, bind, get, llm_call. simpl. fold (prompt_for w).
  destruct (llm_send (llm (self w)) prompt (prompt_for w) None)
    as [reply l'].
  destruct reply as [[|a [|b [|b' reply]]]|]; simpl;
    (erewrite new_events_app
       by (simpl; try rewrite <- app_assoc; reflexivity));
    repeat split.
Qed.

(** [chat] makes one model call, sent the prompt with the system prompt
    that the history calls for, whatever the reply holds; it never runs code
    and never touches the recorded instruction or the system prompt. *)
Theorem chat_one_call_no_execution :
  forall (prompt : str) (w : World),
    let w' := snd (chat prompt w) in
    sent (new_events w w') = [prompt] /\
    prompts (new_events w w') = [prompt_for w] /\
    names (new_events w w') = [None] /\
    runs (new_events w w') = [] /\
    instruction (self w') = instruction (self w) /\
    system_prompt (self w') = system_prompt (self w).
Proof. exact chat_frame. Qed.

Lemma run_op_keeps_system_prompt (fuel : nat) (o : Op) (w : World) :
  system_prompt (self (snd (run_op fuel o w))) = system_prompt (self w).
Proof.
  destruct o as [instr name|prompt| | |title author]; simpl.
  - apply call_keeps_system_prompt.
  - apply (chat_frame prompt w).
  - now rewrite (proj1 (quiet_step w)).
  - reflexivity.
  - now rewrite (proj1 (quiet_publish title author w)).
Qed.

Lemma call_instruction (fuel : nat) (instruction0 : str)
    (llm_name : option str) (w : World) :
  instruction (self (snd (__call__ fuel instruction0 llm_name w)))
  = if truthy (prompt_for w) then Some instruction0 else instruction (self w).
Proof.
  destruct (call_discipline fuel instruction0 llm_name w)
    as (d & fb & _ & _ & _ & _ & H & _).
  exact H.
Qed.

Lemma run_op_keeps_instruction (fuel : nat) (o : Op) (w : World) :
  records_history ->
  llm_history (llm (self w)) = true ->
  is_clear o = false ->
  instruction (self (snd (run_op fuel o w))) = instruction (self w) /\
  llm_history (llm (self (snd (run_op fuel o w)))) = true.
Proof.
  intros Hrec Hh Hc.
  destruct o as [instr name|prompt| | |title author]; simpl;
    try discriminate.
  - rewrite call_instruction. unfold prompt_for. rewrite Hh. simpl.
    split; [reflexivity|].
    destruct (call_discipline fuel instr name w)
      as (d & fb & _ & _ & _ & _ & _ & H).
    now apply H.
  - split; [apply (chat_frame prompt w)|].
    destruct (chat_discipline prompt w) as (d & _ & _ & H). now apply H.
  - now rewrite (proj1 (quiet_step w)).
  - now rewrite (proj1 (quiet_publish title author w)).
Qed.

Lemma session_keeps_instruction (fuel : nat) (ops : list Op) :
  records_history ->
  forall (w : World),
    llm_history (llm (self w)) = true ->
    forallb (fun o => negb (is_clear o)) ops = true ->
    instruction (self (session fuel ops w)) = instruction (self w).
Proof.
  intros Hrec. induction ops as [|o ops IH]; intros w Hh Hops; simpl.
  - reflexivity.
  - simpl in Hops. apply andb_true_iff in Hops as [Ho Hops].
    apply negb_true_iff in Ho.
    destruct (run_op_keeps_instruction fuel o w Hrec Hh Ho) as [Hi Hh'].
    rewrite IH by assumption. exact Hi.
Qed.

(** When the first operation of a session is a [__call__], made with an
    empty model history and a non-empty system prompt, that call records its
    instruction, and no later [__call__], [chat], [step] or [publish]
    replaces it as long as [clear] is not called (under the model's contract
    that its history is non-empty once it was sent something). *)
Theorem first_instruction_stays_active :
  records_history ->
  forall (fuel : nat) (first : str) (llm_name : option str) (ops : list Op)
         (w : World),
    llm_history (llm (self w)) = false ->
    truthy (system_prompt (self w)) = true ->
    forallb (fun o => negb (is_clear o)) ops = true ->
    instruction (self (session fuel (OpCall first llm_name :: ops) w))
    = Some first.
Proof.
  intros Hrec fuel first llm_name ops w Hh Hsp Hops. simpl.
  rewrite session_keeps_instruction; auto.
  - rewrite call_instruction. unfold prompt_for. now rewrite Hh, Hsp.
  - destruct (call_discipline fuel first llm_name w)
      as (d & fb & _ & _ & _ & _ & _ & H).
    now apply H.
Qed.

(** Without a system prompt ([None] or empty) no instruction is ever
    recorded: whatever is called, [clear] included, the active instruction
    stays what it was. *)
Theorem no_system_prompt_no_active_instruction :
  forall (fuel : nat) (ops : list Op) (w : World),
    truthy (system_prompt (self w)) = false ->
    instruction (self (session fuel ops w)) = instruction (self w).
Proof.
  intros fuel ops. induction ops as [|o ops IH]; intros w Hsp; simpl.
  - reflexivity.
  - rewrite IH by (rewrite run_op_keeps_system_prompt; exact Hsp).
    destruct o as [instr name|prompt| | |title author]; simpl.
    + rewrite call_instruction. unfold prompt_for.
      destruct (llm_history (llm (self w))); simpl; [reflexivity|].
      now rewrite Hsp.
    + apply (chat_frame prompt w).
    + now rewrite (proj1 (quiet_step w)).
    + reflexivity.
    + now rewrite (proj1 (quiet_publish title author w)).
Qed.

(** [clear] begins a new session: it returns having cleared the model and
    then the sandbox, leaves the system prompt and the recorded instruction
    alone, and, when the model's history is empty once cleared, the next
    [__call__] passes the system prompt again and, that prompt being
    non-empty, records its instruction. *)
Theorem clear_starts_new_session :
  forall (fuel : nat) (instruction0 : str) (llm_name : option str)
         (w : World),
    llm_history (llm_clear (llm (self w))) = false ->
    let w1 := snd (clear w) in
    let out := __call__ fuel instruction0 llm_name w1 in
    fst (clear w) = Ok tt /\
    new_events w w1 = [EvLLMClear; EvRunnerClear] /\
    system_prompt (self w1) = system_prompt (self w) /\
    instruction (self w1) = instruction (self w) /\
    List.hd_error (prompts (new_events w1 (snd out)))
    = Some (system_prompt (self w)) /\
    (truthy (system_prompt (self w)) = true ->
     instruction (self (snd out)) = Some instruction0).
Proof.
  intros fuel instruction0 llm_name w Hc w1 out.
  assert (Hp : prompt_for w1 = system_prompt (self w)).
  { subst w1. unfold prompt_for. simpl. now rewrite Hc. }
  split; [reflexivity|].
  split.
  { apply new_events_app. subst w1. unfold clear, bind, modify_self, emit.
    simpl. now rewrite <- app_assoc. }
  split; [reflexivity|]. split; [reflexivity|].
  subst out. split.
  - destruct (call_discipline fuel instruction0 llm_name w1)
      as (d & fb & Ht & Hpr & _).
    erewrite new_events_app by exact Ht. rewrite Hpr, Hp. reflexivity.
  - intros Hsp. rewrite call_instruction, Hp, Hsp. reflexivity.
Qed.

End InstructionProofs.

(** ** More on prompt assembly *)

Section AssemblyProofs.

Context {C : Collab}.

Lemma register_app (a b : list (str * str * str)) (r : Runner) :
  register (a ++ b) r = register b (register a r).
Proof. apply fold_left_app. Qed.

Lemma setenv_events_app (a b : list (str * str * str)) :
  setenv_events (a ++ b) = setenv_events a ++ setenv_events b.
Proof. apply map_app. Qed.

Lemma bindings_setenv_events (bs : list (str * str * str)) :
  bindings (setenv_events bs) = bs.
Proof.
  induction bs as [|[[n v] d] bs IH]; simpl; [reflexivity|]. now rewrite IH.
Qed.

(** The loop over one [env] mapping adds a line and registers a binding
    for each entry with a value that is not blank. *)
Lemma env_loop_declared (envs : list (str * (str * str))) :
  forall (lines : list (option str)) (r : Runner) (tr : list Event),
    env_loop envs lines r tr
    = (lines ++ List.map Some (List.map binding_line (declared_env envs)),
       register (declared_env envs) r,
       tr ++ setenv_events (declared_env envs)).
Proof.
  induction envs as [|[name [value desc]] envs IH]; intros lines r tr.
  - simpl. now rewrite !app_nil_r.
  - simpl. destruct (nonempty (strip value)); simpl.
    + rewrite IH. rewrite <- !app_assoc. reflexivity.
    + apply IH.
Qed.

Lemma api_loop_declared (lang : option str) (api : list (str * ApiConf)) :
  forall (lines : list (option str)) (r : Runner) (tr : list Event),
    api_loop lang api lines r tr
    = (lines ++ List.map Some (api_sections lang api),
       register (declared_bindings api) r,
       tr ++ setenv_events (declared_bindings api)).
Proof.
  induction api as [|[api_name conf] api IH]; intros lines r tr.
  - simpl. now rewrite !app_nil_r.
  - cbn [api_loop].
    fold (envs_of conf).
    unfold api_sections, declared_bindings. cbn [flat_map snd].
    fold (api_sections lang api). fold (declared_bindings api).
    unfold api_section.
    destruct (envs_of conf) as [|en envs] eqn:Een.
    + destruct (api_desc conf) as [[|c d]|]; cbn [truthy nonempty format];
        rewrite IH; cbn [declared_env flat_map app];
        rewrite <- ?app_assoc; reflexivity.
    + rewrite env_loop_declared.
      destruct (api_desc conf) as [[|c d]|]; cbn [truthy nonempty format];
        rewrite IH, register_app, setenv_events_app;
        repeat (rewrite ?map_app, <- ?app_assoc, ?app_nil_r;
                cbn [List.map app]);
        reflexivity.
Qed.

Lemma join_lines_some (ls : list str) :
  join_lines (List.map Some ls) = Some (join_nl ls).
Proof.
  induction ls as [|l ls IH]; [reflexivity|].
  destruct ls as [|l' ls]; [reflexivity|].
  change (List.map Some (l :: l' :: ls))
    with (Some l :: List.map Some (l' :: ls)).
  cbn [join_lines]. cbn [List.map] in *. rewrite IH. reflexivity.
Qed.

Lemma lang_after_init (config : Settings LLMConf) (e : Env) :
  i18n_lang (if truthy (cfg_lang config)
             then set_lang (cfg_lang config) e else e)
  = lang_after config e.
Proof. unfold lang_after. destruct (truthy (cfg_lang config)); reflexivity. Qed.

Lemma trace_after_lang (config : Settings LLMConf) (e : Env) :
  trace (if truthy (cfg_lang config)
         then set_lang (cfg_lang config) e else e)
  = trace e.
Proof. destruct (truthy (cfg_lang config)); reflexivity. Qed.

(** With an [llm] entry, a base system prompt and a non-empty [api]
    mapping, the constructor returns, and the system prompt is the base
    prompt followed, line by line and in the order of the mapping, by each
    capability's header, its environment header (whenever [env] has entries,
    even if all their values are blank) with one line per non-blank entry,
    and its description; the language read from [lang] is in force for the
    headers. *)
Theorem init_prompt_is_base_and_sections :
  forall (config : Settings LLMConf) (console : option Console) (e : Env)
         (llm_conf : LLMConf) (base : str) (first : str * ApiConf)
         (rest : list (str * ApiConf)),
    cfg_llm config = Some llm_conf ->
    cfg_system_prompt config = Some base ->
    cfg_api config = Some (first :: rest) ->
    exists a e',
      __init__ config console e = (Ok a, e') /\
      system_prompt a
      = Some (join_nl (base :: api_sections (lang_after config e)
                                            (first :: rest))) /\
      i18n_lang e' = lang_after config e /\
      instruction a = None /\
      settings a = config.
Proof.
  intros config console e llm_conf base first rest Hllm Hbase Hapi.
  unfold __init__, _init. rewrite Hllm, Hapi, Hbase.
  rewrite api_loop_declared, lang_after_init.
  change (Some base :: List.map Some (api_sections (lang_after config e)
                                                   (first :: rest)))
    with (List.map Some (base :: api_sections (lang_after config e)
                                              (first :: rest))).
  change ([Some base] ++ List.map Some (api_sections (lang_after config e)
                                                     (first :: rest)))
    with (List.map Some (base :: api_sections (lang_after config e)
                                              (first :: rest))).
  rewrite join_lines_some.
  eexists; eexists. split; [reflexivity|].
  simpl. repeat split.
Qed.

(** Whenever the configuration has an [llm] entry, [_init] registers with
    the execution collaborator exactly the bindings the [api] mapping
    declares (the entries of every [env] whose value is not blank, the value
    stripped), in the order of the configuration and on a new runner, and
    the trace gains nothing else; this holds also when [_init] then fails to
    join the prompt. *)
Theorem init_registers_declared_bindings :
  forall (config : Settings LLMConf) (console : option Console)
         (instruction0 : option str) (e : Env) (llm_conf : LLMConf),
    cfg_llm config = Some llm_conf ->
    let out := _init config console instruction0 e in
    let api := match cfg_api config with Some api => api | None => [] end in
    let con := match console with
               | Some c => c
               | None => mkConsole (match cfg_record config with
                                    | Some b => b
                                    | None => true
                                    end)
               end in
    trace (snd out) = trace e ++ setenv_events (declared_bindings api) /\
    bindings (skipn (List.length (trace e)) (trace (snd out)))
    = declared_bindings api /\
    (forall a, fst out = Ok a ->
               runner a
               = register (declared_bindings api) (runner_new con config)).
Proof.
  intros config console instruction0 e llm_conf Hllm out api con.
  assert (Ht : trace (snd out) = trace e ++ setenv_events (declared_bindings api)
               /\ (forall a, fst out = Ok a ->
                     runner a = register (declared_bindings api)
                                         (runner_new con config))).
  { subst out api con. unfold _init. rewrite Hllm.
    destruct (cfg_api config) as [[|first rest]|].
    - simpl. rewrite trace_after_lang, app_nil_r. split;
        [reflexivity | intros a H; injection H as <-; reflexivity].
    - rewrite api_loop_declared, trace_after_lang.
      destruct (join_lines _); cbn [fst snd trace].
      + split; [reflexivity | intros a H; injection H as <-; reflexivity].
      + split; [reflexivity | discriminate].
    - simpl. rewrite trace_after_lang, app_nil_r. split;
        [reflexivity | intros a H; injection H as <-; reflexivity]. }
  destruct Ht as [Ht Hr].
  split; [exact Ht|]. split; [|exact Hr].
  rewrite Ht, skipn_app, skipn_all, Nat.sub_diag. simpl.
  apply bindings_setenv_events.
Qed.

(** Without an [llm] entry the constructor raises [KeyError]: no binding
    is registered and nothing is printed, yet the language named by [lang]
    is in force already. *)
Theorem init_without_llm_raises :
  forall (config : Settings LLMConf) (console : option Console) (e : Env),
    cfg_llm config = None ->
    fst (__init__ config console e) = Raise (KeyError "llm") /\
    trace (snd (__init__ config console e)) = trace e /\
    i18n_lang (snd (__init__ config console e)) = lang_after config e.
Proof.
  intros config console e Hllm. unfold __init__, _init. rewrite Hllm. simpl.
  split; [reflexivity|]. split; [apply trace_after_lang | apply lang_after_init].
Qed.


End AssemblyProofs.

(** ** More on publishing *)

Section PublishFrame.

Context {C : Collab}.
Local Open Scope agent_scope.

Variable P : Event -> bool.

Lemma emits_only_ret {A} (a : A) : emits_only P (ret a).
Proof. intros w; split; [reflexivity|]. exists []. now rewrite app_nil_r. Qed.

Lemma emits_only_raise {A} (e : Exn) : emits_only P (@raise _ A e).
Proof. intros w; split; [reflexivity|]. exists []. now rewrite app_nil_r. Qed.

Lemma emits_only_get : emits_only P get.
Proof. intros w; split; [reflexivity|]. exists []. now rewrite app_nil_r. Qed.

Lemma emits_only_emit (ev : Event) : P ev = true -> emits_only P (emit ev).
Proof.
  intros H w; split; [reflexivity|]. exists [ev]. split; [reflexivity|].
  simpl. now rewrite H.
Qed.

Lemma emits_only_bind {A B} (m : M A) (k : A -> M B) :
  emits_only P m -> (forall a, emits_only P (k a)) -> emits_only P (bind m k).
Proof.
  intros Hm Hk w. unfold bind.
  destruct (Hm w) as (Hs & d & Ht & Hd).
  destruct (m w) as [[a|e|] w1]; simpl in *;
    try (split; [exact Hs | exists d; split; assumption]).
  destruct (Hk a w1) as (Hs' & d' & Ht' & Hd').
  split; [congruence|].
  exists (d ++ d'). split.
  - rewrite Ht', Ht, app_assoc; reflexivity.
  - rewrite forallb_app, Hd, Hd'. reflexivity.
Qed.

Lemma emits_only_try_except {A} (m : M A) (h : Exn -> M A) :
  emits_only P m -> (forall e, emits_only P (h e)) ->
  emits_only P (try_except m h).
Proof.
  intros Hm Hh w. unfold try_except.
  destruct (Hm w) as (Hs & d & Ht & Hd).
  destruct (m w) as [[a|e|] w1]; simpl in *;
    try (split; [exact Hs | exists d; split; assumption]).
  destruct (Hh e w1) as (Hs' & d' & Ht' & Hd').
  split; [congruence|].
  exists (d ++ d'). split.
  - rewrite Ht', Ht, app_assoc; reflexivity.
  - rewrite forallb_app, Hd, Hd'. reflexivity.
Qed.

Lemma emits_only_T_ (key : string) (args : list Z) : emits_only P (T_ key args).
Proof.
  unfold T_. apply emits_only_bind; [apply emits_only_get|].
  intros; apply emits_only_ret.
Qed.

Lemma emits_only_write_cert (cert : str) : emits_only P (write_cert cert).
Proof.
  intros w; split; [reflexivity|]. exists []. simpl. now rewrite app_nil_r.
Qed.

Lemma emits_only_post (req : Request) :
  P (EvPost req) = true -> emits_only P (post req).
Proof.
  intros H w. unfold post.
  destruct (requests_post (net (env w)) req) as [[e|response] n]; simpl;
    (split; [reflexivity|]); exists [EvPost req];
    (split; [reflexivity|]); simpl; now rewrite H.
Qed.

Lemma emits_only_publish (title author : option str) :
  (forall ev, console_or_post ev = true -> P ev = true) ->
  emits_only P (publish title author).
Proof.
  intros HP.
  unfold publish. apply emits_only_bind; [apply emits_only_get|]. intros w.
  assert (Hdis : emits_only P (t <- T_ "publish_disabled" [] ;;
                               console_print [RStr (lit "[red]" ++ t)])).
  { apply emits_only_bind; [apply emits_only_T_|].
    intros; apply emits_only_emit; now apply HP. }
  destruct (cfg_publish_url (settings (self w))) as [[|u0 url]|];
    destruct (cfg_publish_cert (settings (self w))) as [[|c0 cert]|];
    try exact Hdis.
  apply emits_only_bind.
  { destruct author as [[|a0 a]|]; try apply emits_only_ret;
      unfold os_getlogin; (apply emits_only_bind; [apply emits_only_get|]);
      intros w0; destruct (os_login (env w0));
      first [apply emits_only_ret | apply emits_only_raise]. }
  intros who. apply emits_only_bind.
  { destruct (negb (cert_staged (env w)));
      [apply emits_only_write_cert | apply emits_only_ret]. }
  intros _. apply emits_only_bind.
  { apply emits_only_try_except.
    - apply emits_only_bind; [apply emits_only_post; now apply HP|].
      intros; apply emits_only_ret.
    - intros e. apply emits_only_bind; [apply emits_only_raise|].
      intros; apply emits_only_ret. }
  intros [response|]; [|apply emits_only_ret].
  destruct (status_code response =? 201)%Z.
  - apply emits_only_bind; [apply emits_only_T_|]. intros t.
    apply emits_only_bind.
    { unfold response_json.
      destruct (json_body response);
        [apply emits_only_ret | apply emits_only_raise]. }
    intros v. apply emits_only_bind.
    { unfold subscript.
      destruct (getitem v "url");
        [apply emits_only_raise | apply emits_only_ret]. }
    intros u. apply emits_only_emit; now apply HP.
  - apply emits_only_bind; [apply emits_only_T_|]. intros t.
    apply emits_only_emit; now apply HP.
Qed.

End PublishFrame.

Section PublishMore.

Context {C : Collab}.

(** Whatever its arguments, the configuration and the transport,
    [publish] changes no attribute of the agent and calls only the console
    and the transport: never the model, never the sandbox. *)
Theorem publish_calls_console_and_transport_only :
  forall (title author : option str) (w : World),
    let w' := snd (publish title author w) in
    self w' = self w /\
    forallb console_or_post (new_events w w') = true /\
    replies (new_events w w') = [] /\
    runs (new_events w w') = [] /\
    bindings (new_events w w') = [].
Proof.
  intros title author w w'. subst w'.
  destruct (@emits_only_publish C console_or_post title author
              (fun ev H => H) w) as (Hs & d & Ht & Hd).
  erewrite new_events_app by exact Ht.
  split; [exact Hs|]. split; [exact Hd|].
  clear Ht. induction d as [|ev d IH]; [repeat split|].
  simpl in Hd. apply andb_true_iff in Hd as [Hev Hd].
  destruct (IH Hd) as (H1 & H2 & H3).
  destruct ev; try discriminate; simpl; auto.
Qed.

(** What a call that reaches the upload leaves behind, whatever the
    outcome of the POST: one request posted, the transport advanced once,
    and the certificate file as [staged] describes it. *)
Lemma publish_upload_effects (w : World) title author url cert who :
  cfg_publish_url (settings (self w)) = Some url -> nonempty url = true ->
  cfg_publish_cert (settings (self w)) = Some cert -> nonempty cert = true ->
  py_or author (os_login (env w)) = Some who ->
  let req := publish_request url (py_or title (instruction (self w))) who w in
  let w' := snd (publish title author w) in
  posts (new_events w w') = [req] /\
  net (env w') = snd (requests_post (net (env w)) req) /\
  cert_file (env w') = cert_file (staged cert (env w)).
Proof.
  intros Hu Hun Hc Hcn Ha req w'. subst w'.
  rewrite (publish_upload w title author Hu Hun Hc Hcn Ha). fold req.
  unfold posted.
  set (e1 := staged cert (env w)).
  assert (He1 : trace e1 = trace (env w))
    by (subst e1; unfold staged; destruct (negb (cert_staged (env w)));
        reflexivity).
  destruct (requests_post (net (env w)) req) as [[e|response] n];
    cbn [fst snd].
  - split; [|split; reflexivity].
    erewrite new_events_app by (simpl; rewrite He1; reflexivity).
    reflexivity.
  - destruct (status_code response =? 201)%Z.
    + destruct (json_body response) as [v|] eqn:Hb;
        [destruct (getitem v "url") as [ex|u] eqn:Hg|];
        unfold bind, T_, get, ret, response_json, subscript;
        simpl; rewrite ?Hb; simpl; rewrite ?Hg; simpl.
      * split; [|split; reflexivity].
        erewrite new_events_app by (simpl; rewrite He1; reflexivity).
        reflexivity.
      * split; [|split; reflexivity].
        erewrite new_events_app
          by (simpl; rewrite He1, <- app_assoc; reflexivity).
        reflexivity.
      * split; [|split; reflexivity].
        erewrite new_events_app by (simpl; rewrite He1; reflexivity).
        reflexivity.
    + unfold bind, T_, get, ret. simpl.
      split; [|split; reflexivity].
      erewrite new_events_app
        by (simpl; rewrite He1, <- app_assoc; reflexivity).
      reflexivity.
Qed.

(** A call of [publish] that reaches the upload posts exactly one request,
    whatever comes back: a transport exception, a 201 (readable or not) or
    any other status is never followed by a second attempt.  The request goes
    to the configured URL with the client certificate at [CERT_PATH] and
    with verification on. *)
Theorem publish_posts_once :
  forall (w : World) (title author : option str) (url cert who : str),
    cfg_publish_url (settings (self w)) = Some url -> nonempty url = true ->
    cfg_publish_cert (settings (self w)) = Some cert -> nonempty cert = true ->
    py_or author (os_login (env w)) = Some who ->
    exists req,
      posts (new_events w (snd (publish title author w))) = [req] /\
      net (env (snd (publish title author w)))
      = snd (requests_post (net (env w)) req) /\
      req_url req = url /\
      req_title req = py_or title (instruction (self w)) /\
      req_cert req = CERT_PATH /\
      req_verify req = true.
Proof.
  intros w title author url cert who Hu Hun Hc Hcn Ha.
  destruct (publish_upload_effects w title author Hu Hun Hc Hcn Ha)
    as (H1 & H2 & _).
  eexists. split; [exact H1|]. split; [exact H2|]. repeat split.
Qed.


(** When publishing is configured, no author is given and [os.getlogin()]
    raises, [publish] raises that [OSError] before anything is done: no
    certificate is written, nothing is posted, nothing is printed. *)
Theorem publish_without_login_raises :
  forall (w : World) (title author : option str),
    truthy (cfg_publish_url (settings (self w))) = true ->
    truthy (cfg_publish_cert (settings (self w))) = true ->
    truthy author = false ->
    os_login (env w) = None ->
    publish title author w = (Raise OSError, w).
Proof.
  intros w title author Hu Hc Ha Hl.
  unfold publish, bind at 1, get.
  destruct (cfg_publish_url (settings (self w))) as [[|u0 url]|];
    try discriminate.
  destruct (cfg_publish_cert (settings (self w))) as [[|c0 cert]|];
    try discriminate.
  unfold bind at 1.
  destruct author as [[|a0 a]|]; try discriminate;
    unfold os_getlogin, bind, get; rewrite Hl; reflexivity.
Qed.

(** A 201 response whose body is a JSON document but no object (a list, a
    string, a number, [true], [null]) makes [publish] raise [TypeError] when
    it subscripts the body, after the POST and with nothing printed. *)
Theorem publish_success_non_object_body_raises :
  forall (w : World) (title author : option str) (url cert who : str)
         (response : Response) (n : Net) (v : json),
    cfg_publish_url (settings (self w)) = Some url -> nonempty url = true ->
    cfg_publish_cert (settings (self w)) = Some cert -> nonempty cert = true ->
    py_or author (os_login (env w)) = Some who ->
    let req := publish_request url (py_or title (instruction (self w))) who w in
    requests_post (net (env w)) req = (inr response, n) ->
    status_code response = 201%Z ->
    json_body response = Some v ->
    (forall members, v <> JObj members) ->
    fst (publish title author w) = Raise TypeError /\
    new_events w (snd (publish title author w)) = [EvPost req].
Proof.
  intros w title author url cert who response n v Hu Hun Hc Hcn Ha req
         Hpost Hst Hb Hv.
  rewrite (publish_upload w title author Hu Hun Hc Hcn Ha).
  fold req. rewrite Hpost, Hst. simpl.
  unfold bind, T_, get, ret, response_json, subscript.
  simpl. rewrite Hb. simpl.
  assert (Hg : getitem v "url" = inl TypeError).
  { destruct v; try reflexivity. exfalso. now apply (Hv members). }
  rewrite Hg. simpl.
  split; [reflexivity|]. apply new_events_app. simpl.
  unfold staged; destruct (negb (cert_staged (env w))); reflexivity.
Qed.

End PublishMore.

(** ** The further properties at sample sessions *)

Lemma first_instruction_stays_active_witness :
  instruction
    (self (session 3
             [OpCall (lit "print one") None; OpCall (lit "and two") None;
              OpChat (lit "thanks"); OpPublish None None]
             (Mock.world [Some Sample.code_reply; Some (lit "Done.")])))
  = Some (lit "print one").
Proof.
  apply (@first_instruction_stays_active Mock.collab mock_records_history 3
           (lit "print one") None
           [OpCall (lit "and two") None; OpChat (lit "thanks");
            OpPublish None None]
           (Mock.world [Some Sample.code_reply; Some (lit "Done.")]));
    reflexivity.
Defined.

Lemma no_system_prompt_no_active_instruction_witness :
  instruction
    (self (session 3 [OpCall (lit "print one") None; OpClear;
                      OpCall (lit "again") None]
             (Scene.no_prompt [Some (lit "Done.")])))
  = None.
Proof.
  apply (@no_system_prompt_no_active_instruction Mock.collab 3
           [OpCall (lit "print one") None; OpClear; OpCall (lit "again") None]
           (Scene.no_prompt [Some (lit "Done.")])).
  reflexivity.
Defined.

Lemma clear_starts_new_session_witness :
  List.hd_error
    (prompts
       (new_events
          (snd (clear (snd (__call__ 2 (lit "one") None
                              (Mock.world [Some (lit "Done.")])))))
          (snd (__call__ 2 (lit "two") None
                  (snd (clear (snd (__call__ 2 (lit "one") None
                                      (Mock.world [Some (lit "Done.")])))))))))
  = Some (Some (lit "You are a helper")).
Proof.
  destruct (@clear_starts_new_session Mock.collab 2 (lit "two") None
              (snd (__call__ 2 (lit "one") None
                      (Mock.world [Some (lit "Done.")]))))
    as (_ & _ & _ & _ & H & _).
  - reflexivity.
  - exact H.
Defined.

Lemma init_prompt_is_base_and_sections_witness :
  exists (a : @Agent Mock.collab) (e' : @Env Mock.collab),
    @__init__ Mock.collab Scene.two_apis None (Mock.env0 []) = (Ok a, e') /\
    system_prompt a
    = Some (join_nl [lit "Base"; lit "## Weather API";
                     lit "### env_description"; lit "- KEY: the key";
                     lit "## Clock API";
                     lit "### API description" ++ NL :: lit "Tells time"]) /\
    i18n_lang e' = Some (lit "en") /\
    instruction a = None /\
    settings a = Scene.two_apis.
Proof.
  exact (@init_prompt_is_base_and_sections Mock.collab Scene.two_apis None
           (Mock.env0 []) [] (lit "Base") _ _ eq_refl eq_refl eq_refl).
Defined.

Lemma init_registers_declared_bindings_witness :
  bindings (trace (snd (@_init Mock.collab Scene.two_apis None None (Mock.env0 []))))
  = [(lit "KEY", lit "abc", lit "the key")].
Proof.
  exact (proj1 (proj2 (@init_registers_declared_bindings Mock.collab
                         Scene.two_apis None None (Mock.env0 []) []
                         eq_refl))).
Defined.

Lemma init_without_llm_raises_witness :
  fst (@__init__ Mock.collab Scene.no_llm None (Mock.env0 [])) = Raise (KeyError "llm") /\
  trace (snd (@__init__ Mock.collab Scene.no_llm None (Mock.env0 []))) = [] /\
  i18n_lang (snd (@__init__ Mock.collab Scene.no_llm None (Mock.env0 [])))
  = Some (lit "en").
Proof.
  exact (@init_without_llm_raises Mock.collab Scene.no_llm None (Mock.env0 [])
           eq_refl).
Defined.


Lemma publish_posts_once_witness :
  exists req,
    posts (new_events
             (Mock.publishing [inl (RequestException (lit "timeout"));
                               inr Mock.created])
             (snd (publish None None
                     (Mock.publishing [inl (RequestException (lit "timeout"));
                                       inr Mock.created]))))
    = [req] /\
    net (env (snd (publish None None
                     (Mock.publishing [inl (RequestException (lit "timeout"));
                                       inr Mock.created]))))
    = [inr Mock.created] /\
    req_url req = lit "https://pub.example/api" /\
    req_title req = None /\
    req_cert req = CERT_PATH /\
    req_verify req = true.
Proof.
  exact (@publish_posts_once Mock.collab
           (Mock.publishing [inl (RequestException (lit "timeout"));
                             inr Mock.created])
           None None (lit "https://pub.example/api")
           (lit "-----BEGIN CERTIFICATE-----") (lit "operator")
           eq_refl eq_refl eq_refl eq_refl eq_refl).
Defined.


Lemma publish_without_login_raises_witness :
  publish (Some (lit "Report")) None (Scene.no_login [inr Mock.created])
  = (Raise OSError, Scene.no_login [inr Mock.created]).
Proof.
  apply (@publish_without_login_raises Mock.collab
           (Scene.no_login [inr Mock.created]) (Some (lit "Report")) None);
    reflexivity.
Defined.

Lemma publish_success_non_object_body_raises_witness :
  fst (publish None None (Mock.publishing [inr Scene.created_list]))
  = Raise TypeError.
Proof.
  refine (proj1 (@publish_success_non_object_body_raises Mock.collab
                   (Mock.publishing [inr Scene.created_list]) None None
                   (lit "https://pub.example/api")
                   (lit "-----BEGIN CERTIFICATE-----") (lit "operator")
                   Scene.created_list [] (JArr [])
                   eq_refl eq_refl eq_refl eq_refl eq_refl eq_refl eq_refl
                   eq_refl _)).
  intros members H. discriminate H.
Defined.
